(** * jc/cli.py: dispatch, magic syntax, colours and exit codes

    A shallow embedding of the command-line front end of [jc]
    (src/jc/cli.py) and the properties its design document states about it.

    Python values are modelled as follows.
    - [int] is [Z] (Python integers are unbounded).
    - [str] is [string]; a character of the string stands for one code point
      (the model covers code points below 256).
    - a [list] of one-character strings (the option letters) is [list ascii].
    - [dict] with string keys is [gmap string _].
    - a call that may raise returns [Py.result]; [None] is [option]. *)

From Stdlib Require Import ZArith Ascii.
From stdpp Require Import gmap strings list fin_maps.

Local Open Scope Z_scope.

(** ** Python built-ins used by cli.py *)

Module Py.

(** The exceptions that the modelled code can let escape. *)
Inductive exn : Type :=
| IndexError
| KeyError
| UnboundLocalError
| ModuleNotFoundError
| FileNotFoundError
| PermissionError
| NameError
| AttributeError.

Inductive result (A : Type) : Type :=
| Ret (a : A)
| Raise (e : exn).
Global Arguments Ret {A} a.
Global Arguments Raise {A} e.

Definition bind {A B} (m : result A) (k : A → result B) : result B :=
  match m with
  | Ret a => k a
  | Raise e => Raise e
  end.

(** [s.startswith(p)] *)
Definition startswith (s p : string) : bool := String.prefix p s.

(** [s[n:]] *)
Fixpoint slice_from (n : nat) (s : string) : string :=
  match n, s with
  | O, _ => s
  | S _, EmptyString => EmptyString
  | S n', String _ s' => slice_from n' s'
  end.

(** [s[:-1]] *)
Fixpoint drop_last (s : string) : string :=
  match s with
  | EmptyString => EmptyString
  | String _ EmptyString => EmptyString
  | String c s' => String c (drop_last s')
  end.

(** [list(s)]: the characters of a string, as [options.extend(s)] adds
    them. *)
Definition chars (s : string) : list ascii := String.list_ascii_of_string s.

(** [a or b] on strings: the empty string is the only falsy one. *)
Definition str_or (a b : string) : string :=
  match a with
  | EmptyString => b
  | String _ _ => a
  end.

(** Truth value of a string. *)
Definition truthy (s : string) : bool :=
  match s with
  | EmptyString => false
  | String _ _ => true
  end.

(** [c.isspace()] for code points below 256: TAB, LF, VT, FF, CR, the four
    separators FS, GS, RS, US, the space, NEL and the no-break space. *)
Definition isspace (c : ascii) : bool :=
  match c with
  | "009" | "010" | "011" | "012" | "013"
  | "028" | "029" | "030" | "031" | " "
  | "133" | "160" => true
  | _ => false
  end%char.

(** [s.split()] with no separator: maximal runs of non-whitespace
    characters, no empty strings.  [split_go word s] scans [s] with the
    characters of the current run collected in [word]. *)
Definition flush (word : string) : list string :=
  match word with
  | EmptyString => []
  | String _ _ => [word]
  end.

Fixpoint split_go (word s : string) : list string :=
  match s with
  | EmptyString => flush word
  | String c s' =>
      if isspace c then flush word ++ split_go EmptyString s'
      else split_go (word +:+ String c EmptyString) s'
  end.

Definition split (s : string) : list string := split_go EmptyString s.

(** [s.split(sep)] for a one-character separator: one more field than
    there are separators, empty fields kept. *)
Fixpoint split_on (sep : ascii) (s : string) : list string :=
  match s with
  | EmptyString => [EmptyString]
  | String c s' =>
      if Ascii.eqb c sep then EmptyString :: split_on sep s'
      else match split_on sep s' with
           | field :: fields => String c field :: fields
           | [] => [String c EmptyString]
           end
  end.

(** [sep.join(l)] *)
Definition join (sep : string) (l : list string) : string :=
  String.concat sep l.

(** [s.replace(old, new)] for a non-empty [old]: the occurrences are
    replaced from the left and do not overlap.  [skip] counts the
    characters of a matched occurrence that are still to be dropped. *)
Fixpoint replace_go (old new : string) (skip : nat) (s : string) : string :=
  match s with
  | EmptyString => EmptyString
  | String c s' =>
      match skip with
      | S k => replace_go old new k s'
      | O =>
          if String.prefix old s
          then new +:+ replace_go old new (Nat.pred (String.length old)) s'
          else String c (replace_go old new O s')
      end
  end.

Definition replace (s old new : string) : string := replace_go old new O s.

(** [x in l] for a list. *)
Definition in_list `{EqDecision A} (x : A) (l : list A) : bool :=
  bool_decide (x ∈ l).

End Py.

(** [Py.result] is an error monad; stdpp's [x ← m; k] notation binds in it. *)
#[global] Instance result_ret : MRet Py.result := @Py.Ret.
#[global] Instance result_bind : MBind Py.result := λ A B k m, Py.bind m k.

Import Py(Ret, Raise).

(** ** shlex.quote *)

Module Shlex.

(** The characters outside the class [[^\w@%+=:,./-]] (ASCII flag set). *)
Definition safe_char (c : ascii) : bool :=
  let n := nat_of_ascii c in
  ((48 <=? n) && (n <=? 57))%nat          (* 0-9 *)
  || ((65 <=? n) && (n <=? 90))%nat       (* A-Z *)
  || ((97 <=? n) && (n <=? 122))%nat      (* a-z *)
  || match c with
     | "_" | "@" | "%" | "+" | "=" | ":" | "," | "." | "/" | "-" => true
     | _ => false
     end%char.

Fixpoint all_safe (s : string) : bool :=
  match s with
  | EmptyString => true
  | String c s' => safe_char c && all_safe s'
  end.

Definition squote : string := String "'" EmptyString.
Definition dquote : string := String "034" EmptyString.

(** [shlex.quote(s)]: the empty string becomes two single quotes, a string
    of safe characters is returned as it is, any other string is wrapped
    in single quotes with each single quote inside it written as
    quote, double quote, quote, double quote, quote. *)
Definition quote (s : string) : string :=
  match s with
  | EmptyString => squote +:+ squote
  | String _ _ =>
      if all_safe s then s
      else squote
             +:+ Py.replace s squote
                   (squote +:+ dquote +:+ squote +:+ dquote +:+ squote)
             +:+ squote
  end.

End Shlex.

(** ** Exit codes *)

Definition JC_ERROR_EXIT : Z := 100.

Definition combined_exit_code (program_exit jc_exit : Z) : Z :=
  let exit_code := program_exit + jc_exit in
  if exit_code >? 255 then 255 else exit_code.

(** ** The converter catalogue *)

(** The module-level state built when cli.py is imported: [parsers] is the
    catalogue in enumeration order, [local_parsers] the plugin names found in
    the user's plugin directory. *)
Record Registry : Type := {
  parsers : list string;
  local_parsers : list string;
}.

(** The catalogue as written in the source, before any plugin is added. *)
Definition builtin : Registry := {|
  parsers := [
    "acpi"; "airport"; "airport-s"; "arp"; "blkid"; "cksum"; "crontab";
    "crontab-u"; "csv"; "date"; "df"; "dig"; "dir"; "dmidecode"; "dpkg-l";
    "du"; "env"; "file"; "finger"; "free"; "fstab"; "group"; "gshadow";
    "hash"; "hashsum"; "hciconfig"; "history"; "hosts"; "id"; "ifconfig";
    "ini"; "iptables"; "iw-scan"; "jobs"; "kv"; "last"; "ls"; "lsblk";
    "lsmod"; "lsof"; "mount"; "netstat"; "ntpq"; "passwd"; "ping";
    "pip-list"; "pip-show"; "ps"; "route"; "rpm-qi"; "shadow"; "ss";
    "stat"; "sysctl"; "systemctl"; "systemctl-lj"; "systemctl-ls";
    "systemctl-luf"; "systeminfo"; "time"; "timedatectl"; "tracepath";
    "traceroute"; "ufw"; "ufw-appinfo"; "uname"; "upower"; "uptime"; "w";
    "wc"; "who"; "xml"; "yaml"
  ];
  local_parsers := [];
|}.

(** One round of the plugin scan, for a directory entry that passed the
    file-name test: the name is recorded as local, and joins the catalogue
    only if it is not there yet. *)
Definition add_plugin (reg : Registry) (plugin_name : string) : Registry := {|
  parsers := if Py.in_list plugin_name (parsers reg) then parsers reg
             else parsers reg ++ [plugin_name];
  local_parsers := local_parsers reg ++ [plugin_name];
|}.

Definition load_plugins (plugin_names : list string) : Registry :=
  foldl add_plugin builtin plugin_names.

(** ** Converter modules and the environment of one run *)

(** The attribute of a converter's [info] class that the command resolution
    reads: [magic_commands] may be missing.  The other attributes of the
    class are read through [info_attr] and [info_compatible] of the
    environment below. *)
Record info_class : Type := {
  info_magic_commands : option (list string);
}.

(** A converter module: its [__name__] and its [info] class, if it has one.
    The converters themselves live outside cli.py. *)
Record module : Type := {
  mod__name__ : string;
  mod_info : option info_class;
}.

Record World : Type := {
  (** [importlib.import_module(path)] *)
  import_module : string → Py.result module;
  (** [subprocess.Popen(command, stdout=PIPE, stderr=PIPE,
      universal_newlines=True)] followed by [proc.communicate()]: starting
      the child raises an [OSError] (such as [FileNotFoundError] when the
      executable does not exist), or the child runs to its end and yields
      its output, its error text and its return code. *)
  popen_communicate : list string → Py.result (string * string * Z);
  stdin_isatty : bool;
  stdin_read : string;
  stdout_isatty : bool;
  pygments_installed : bool;
  (** [pygments.__version__.startswith('2.3.')] *)
  pygments_2_3 : bool;
  (** [vars(parser_mod.info)] at a key whose value is text ([description],
      [version], [author], [author_email], and [name] or [argument] when
      the class defines them): [None] when the class has no such
      attribute. *)
  info_attr : module → string → option string;
  (** [parser_mod.info.compatible], when the class has it. *)
  info_compatible : module → option (list string);
}.

(** [parser_mod.info.<attr>] and [parser_mod.info.compatible]: an
    [AttributeError] when the module has no [info] class or the class has
    no such attribute. *)
Definition info_getattr (w : World) (parser_mod : module) (attr : string)
  : Py.result string :=
  match mod_info parser_mod with
  | None => Raise Py.AttributeError
  | Some _ =>
      match info_attr w parser_mod attr with
      | Some v => Ret v
      | None => Raise Py.AttributeError
      end
  end.

Definition info_getcompatible (w : World) (parser_mod : module)
  : Py.result (list string) :=
  match mod_info parser_mod with
  | None => Raise Py.AttributeError
  | Some _ =>
      match info_compatible w parser_mod with
      | Some l => Ret l
      | None => Raise Py.AttributeError
      end
  end.

(** ** Names of converters *)

Definition parser_shortname (parser_argument : string) : string :=
  Py.slice_from 2 parser_argument.

Definition parser_argument (parser : string) : string := "--" +:+ parser.

Definition parser_mod_shortname (parser : string) : string :=
  Py.replace (Py.replace parser "--" EmptyString) "-" "_".

Definition parser_module (reg : Registry) (w : World) (parser : string)
  : Py.result module :=
  let shortname := parser_mod_shortname parser in
  let path := if Py.in_list shortname (local_parsers reg)
              then "jcparsers." else "jc.parsers." in
  import_module w (path +:+ shortname).

(** The loop shared by [help_doc] and [main]: the first argument whose
    short name is in the catalogue. *)
Fixpoint first_parser_arg (reg : Registry) (args : list string)
  : option string :=
  match args with
  | [] => None
  | arg :: rest =>
      let parser_name := parser_shortname arg in
      if Py.in_list parser_name (parsers reg) then Some arg
      else first_parser_arg reg rest
  end.

(** ** about_jc *)

(** One element of [about_jc()['parsers']], with the keys that the command
    resolution reads. *)
Record info_dict : Type := {
  name : string;
  argument : string;
  magic_commands : option (list string);
}.

(** The loop of [about_jc].  [current] is the local variable [info_dict]:
    it is assigned only for a module that has an [info] class, and is
    appended to [parser_list] in every round, so a module without [info]
    repeats the previous element (or fails when there is none yet).  The
    keys [name] and [argument] are set first and every public attribute of
    the [info] class is copied over them, so a class that defines [name]
    or [argument] replaces the computed value. *)
Fixpoint about_jc_loop (reg : Registry) (w : World) (todo : list string)
    (current : option info_dict) (parser_list : list info_dict)
  : Py.result (list info_dict) :=
  match todo with
  | [] => Ret parser_list
  | parser :: rest =>
      parser_mod ← parser_module reg w parser;
      let current' :=
        match mod_info parser_mod with
        | Some info =>
            Some {| name :=
                      default
                        (List.last (Py.split_on "." (mod__name__ parser_mod))
                                   EmptyString)
                        (info_attr w parser_mod "name");
                    argument :=
                      default (parser_argument parser)
                              (info_attr w parser_mod "argument");
                    magic_commands := info_magic_commands info |}
        | None => current
        end in
      match current' with
      | None => Raise Py.UnboundLocalError
      | Some d => about_jc_loop reg w rest current' (parser_list ++ [d])
      end
  end.

(** The ['parsers'] field of the dictionary that [about_jc] returns. *)
Definition about_jc (reg : Registry) (w : World) : Py.result (list info_dict) :=
  about_jc_loop reg w (parsers reg) None [].

(** ** magic_parser *)

(** The tuple that [magic_parser] returns. *)
Record magic : Type := {
  valid_command : bool;
  run_command : option (list string);
  jc_parser : option string;
  jc_options : list ascii;
}.

(** [False, None, None, []] *)
Definition not_magic : magic := {|
  valid_command := false;
  run_command := None;
  jc_parser := None;
  jc_options := [];
|}.

(** The option loop.  It iterates over a copy ([todo]) of [args_given] and
    pops the front of [args_given] itself for every option it meets.  The
    result is [None] when a double-dash argument ends the magic syntax. *)
Fixpoint find_options (todo args_given : list string) (options : list ascii)
  : Py.result (option (list string * list ascii)) :=
  match todo with
  | [] => Ret (Some (args_given, options))
  | arg :: rest =>
      if Py.startswith arg "--" then Ret None
      else if Py.startswith arg "-" then
        match args_given with
        | [] => Raise Py.IndexError
        | popped :: args_given' =>
            find_options rest args_given'
              (options ++ Py.chars (Py.slice_from 1 popped))
        end
      else Ret (Some (args_given, options))
  end.

(** [magic_dict.update(other)]: the keys of [other] overwrite. *)
Definition dict_update (magic_dict other : gmap string string)
  : gmap string string :=
  other ∪ magic_dict.

(** [{mc: entry['argument'] for mc in entry.get('magic_commands', [])}] *)
Definition entry_commands (entry : info_dict) : gmap string string :=
  foldl (λ d mc, <[mc := argument entry]> d) ∅
        (default [] (magic_commands entry)).

(** The table of trigger phrases, built by one [update] per element of
    [parser_info], in order. *)
Definition build_magic_dict (parser_info : list info_dict)
  : gmap string string :=
  foldl (λ magic_dict entry, dict_update magic_dict (entry_commands entry))
        ∅ parser_info.

(** [d.get(k1, d.get(k2))] *)
Definition get_or (d : gmap string string) (k1 k2 : string) : option string :=
  match d !! k1 with
  | Some v => Some v
  | None => d !! k2
  end.

(** [about] is the value of [about_jc()['parsers']]; it is looked at only
    when the function reaches the call. *)
Definition magic_parser (about : Py.result (list info_dict))
    (args : list string) : Py.result magic :=
  match args with
  | [] | [_] => Ret not_magic
  | _ :: arg1 :: _ =>
      if Py.startswith arg1 "--" then Ret not_magic
      else
        let args_given :=
          Py.split (Py.join " " (map Shlex.quote (tail args))) in
        scanned ← find_options args_given args_given [];
        match scanned with
        | None => Ret not_magic
        | Some (args_given, options) =>
            if Py.in_list "h"%char options || Py.in_list "a"%char options
               || Py.in_list "v"%char options
            then Ret not_magic
            else
              match args_given with
              | [] => Ret not_magic
              | one_word_command :: _ =>
                  parser_info ← about;
                  let magic_dict := build_magic_dict parser_info in
                  let two_word_command := Py.join " " (take 2 args_given) in
                  let found_parser :=
                    get_or magic_dict two_word_command one_word_command in
                  Ret {| valid_command :=
                           match found_parser with
                           | Some p => Py.truthy p
                           | None => false
                           end;
                         run_command := Some args_given;
                         jc_parser := found_parser;
                         jc_options := options |}
              end
        end
  end.

(** ** run_user_command *)

Definition newline : string := String "010" EmptyString.

Definition run_user_command (w : World) (command : list string)
  : Py.result (string * string * Z) :=
  '(stdout, stderr, returncode) ← popen_communicate w command;
  Ret (Py.str_or stdout newline, stderr, returncode).

(** ** set_env_colors *)

(** The two tables of the source: the first for pygments 2.3, the second
    otherwise. *)
Definition palette (w : World) : gmap string string :=
  if pygments_2_3 w then
    list_to_map [
      ("black", "#ansiblack"); ("red", "#ansidarkred");
      ("green", "#ansidarkgreen"); ("yellow", "#ansibrown");
      ("blue", "#ansidarkblue"); ("magenta", "#ansipurple");
      ("cyan", "#ansiteal"); ("gray", "#ansilightgray");
      ("brightblack", "#ansidarkgray"); ("brightred", "#ansired");
      ("brightgreen", "#ansigreen"); ("brightyellow", "#ansiyellow");
      ("brightblue", "#ansiblue"); ("brightmagenta", "#ansifuchsia");
      ("brightcyan", "#ansiturquoise"); ("white", "#ansiwhite") ]
  else
    list_to_map [
      ("black", "ansiblack"); ("red", "ansired");
      ("green", "ansigreen"); ("yellow", "ansiyellow");
      ("blue", "ansiblue"); ("magenta", "ansimagenta");
      ("cyan", "ansicyan"); ("gray", "ansigray");
      ("brightblack", "ansibrightblack"); ("brightred", "ansibrightred");
      ("brightgreen", "ansibrightgreen"); ("brightyellow", "ansibrightyellow");
      ("brightblue", "ansibrightblue"); ("brightmagenta", "ansibrightmagenta");
      ("brightcyan", "ansibrightcyan"); ("white", "ansiwhite") ].

(** The global [PYGMENT_COLOR]: the module defines it only when pygments
    could be imported, and reading the name otherwise is a [NameError]. *)
Definition PYGMENT_COLOR (w : World) : Py.result (gmap string string) :=
  if pygments_installed w then Ret (palette w) else Raise Py.NameError.

(** The names [Name], [Keyword], [Number] and [String]: bound by the import
    of pygments only. *)
Definition token_type (w : World) : Py.result unit :=
  if pygments_installed w then Ret () else Raise Py.NameError.

(** The dictionary that [set_env_colors] returns, by token type. *)
Record styles : Type := {
  Name_Tag : string;
  Keyword : string;
  Number : string;
  String_ : string;
}.

(** [l[i]] and [d[k]] *)
Definition getitem_list (l : list string) (i : nat) : Py.result string :=
  match l !! i with
  | Some x => Ret x
  | None => Raise Py.IndexError
  end.

Definition getitem_dict (d : gmap string string) (k : string)
  : Py.result string :=
  match d !! k with
  | Some v => Ret v
  | None => Raise Py.KeyError
  end.

Definition four_defaults : list string :=
  ["default"; "default"; "default"; "default"].

(** The loop over [color_list]: a colour that is not the word default is
    looked up in [PYGMENT_COLOR], and a missing one sets [input_error]. *)
Fixpoint check_colors (w : World) (color_list : list string)
    (input_error : bool) : Py.result bool :=
  match color_list with
  | [] => Ret input_error
  | color :: rest =>
      if negb (String.eqb color "default") then
        table ← PYGMENT_COLOR w;
        if negb (bool_decide (is_Some (table !! color)))
        then check_colors w rest true
        else check_colors w rest input_error
      else check_colors w rest input_error
  end.

(** [PYGMENT_COLOR[color_list[i]] if color_list[i] != 'default'
     else PYGMENT_COLOR[fallback]] *)
Definition slot_color (w : World) (color_list : list string) (i : nat)
    (fallback : string) : Py.result string :=
  color ← getitem_list color_list i;
  if negb (String.eqb color "default")
  then table ← PYGMENT_COLOR w;
       color ← getitem_list color_list i; getitem_dict table color
  else table ← PYGMENT_COLOR w; getitem_dict table fallback.

Definition color_warning : string :=
  "could not parse JC_COLORS environment variable".

(** The result pairs the warnings handed to [jc.utils.warning_message] with
    the returned dictionary (or the exception that escapes).  In the
    dictionary each key, a token type, is evaluated before its value. *)
Definition set_env_colors (w : World) (env_colors : option string)
  : list string * Py.result styles :=
  let color_list :=
    match env_colors with
    | Some s => if Py.truthy s then Py.split_on "," s else four_defaults
    | None => four_defaults
    end in
  let input_error := negb (length color_list =? 4)%nat in
  match check_colors w color_list input_error with
  | Raise e => ([], Raise e)
  | Ret input_error =>
      let warnings := if input_error then [color_warning] else [] in
      let color_list := if input_error then four_defaults else color_list in
      (warnings,
       _ ← token_type w; tag ← slot_color w color_list 0 "blue";
       _ ← token_type w; keyword ← slot_color w color_list 1 "brightblack";
       _ ← token_type w; number ← slot_color w color_list 2 "magenta";
       _ ← token_type w; str ← slot_color w color_list 3 "green";
       Ret {| Name_Tag := "bold " +:+ tag; Keyword := keyword;
              Number := number; String_ := str |})
  end.

(** ** main *)

(** How one run ends.  Every constructor but the last is a [sys.exit]; the
    last one is the call [parser.parse(data, raw=raw, quiet=quiet)], where
    the converter takes over. *)
Inductive outcome : Type :=
| ParserNotFound (run_command_str : string) (exit_code : Z)
| PrintAbout (about : list info_dict) (pretty mono piped_out : bool)
| PrintHelp (documented : option module)
| PrintVersion
| MissingPipedData (exit_code : Z)
| MissingArguments (exit_code : Z)
| Parse (parser : module) (data : string) (raw quiet debug : bool)
        (magic_exit_code : Z).

(** [padding_char * n] for a one-character string: nothing when [n] is not
    positive. *)
Fixpoint repeat_char (c : ascii) (n : nat) : string :=
  match n with
  | O => EmptyString
  | S n' => String c (repeat_char c n')
  end.

Definition char_times (c : ascii) (n : Z) : string :=
  repeat_char c (Z.to_nat n).

(** The loop of [parsers_text]: one line for every module that has an
    [info] class, made of the indentation, the flag, the padding up to
    [pad] columns and the description. *)
Fixpoint parsers_text_loop (reg : Registry) (w : World)
    (todo : list string) (indent pad : Z) (ptext : string)
  : Py.result string :=
  match todo with
  | [] => Ret ptext
  | parser :: rest =>
      let parser_arg := parser_argument parser in
      parser_mod ← parser_module reg w parser;
      match mod_info parser_mod with
      | Some _ =>
          parser_desc ← info_getattr w parser_mod "description";
          let padding := pad - Z.of_nat (String.length parser_arg) in
          let padding_char := " "%char in
          let indent_text := char_times padding_char indent in
          let padding_text := char_times padding_char padding in
          parsers_text_loop reg w rest indent pad
            (ptext +:+ indent_text +:+ parser_arg +:+ padding_text
                   +:+ parser_desc +:+ newline)
      | None => parsers_text_loop reg w rest indent pad ptext
      end
  end.

Definition parsers_text (reg : Registry) (w : World) (indent pad : Z)
  : Py.result string :=
  parsers_text_loop reg w (parsers reg) indent pad EmptyString.

(** [help_doc(options)]: the documentation of the first converter named in
    the arguments, or the general help text.  The documentation reads the
    [compatible], [version], [author] and [author_email] attributes of the
    converter; the general help text is a fixed template around
    [parsers_text(indent=12, pad=17)].  The result tells which of the two
    texts is returned; the wording of the texts is not modelled. *)
Definition help_doc (reg : Registry) (w : World) (options : list string)
  : Py.result (option module) :=
  match first_parser_arg reg options with
  | Some arg =>
      parser ← parser_module reg w arg;
      compatible ← info_getcompatible w parser;
      version ← info_getattr w parser "version";
      author ← info_getattr w parser "author";
      author_email ← info_getattr w parser "author_email";
      Ret (Some parser)
  | None =>
      parsers_string ← parsers_text reg w 12 17;
      Ret None
  end.

(** The single-dash pass of [main] over the whole argument vector. *)
Definition argv_options (argv : list string) : list ascii :=
  flat_map
    (λ opt, if Py.startswith opt "-" && negb (Py.startswith opt "--")
            then Py.chars (Py.slice_from 1 opt) else [])
    argv.

(** The run after the magic-syntax step.  [magic_stdout] is [None] when no
    command was run; [printed] is what was relayed to the error stream. *)
Definition dispatch (reg : Registry) (w : World) (argv : list string)
    (valid_command : bool) (magic_found_parser : option string)
    (magic_options : list ascii) (magic_stdout : option string)
    (magic_exit_code : Z) : Py.result outcome :=
  let options :=
    magic_options ++ (if valid_command then [] else argv_options argv) in
  let about := Py.in_list "a"%char options in
  let debug := Py.in_list "d"%char options in
  let mono := Py.in_list "m"%char options in
  let help_me := Py.in_list "h"%char options in
  let pretty := Py.in_list "p"%char options in
  let quiet := Py.in_list "q"%char options in
  let raw := Py.in_list "r"%char options in
  let version_info := Py.in_list "v"%char options in
  let mono := if pygments_installed w then mono else true in
  if about then
    payload ← about_jc reg w;
    Ret (PrintAbout payload pretty mono (negb (stdout_isatty w)))
  else if help_me then
    documented ← help_doc reg w argv; Ret (PrintHelp documented)
  else if version_info then Ret PrintVersion
  else if stdin_isatty w && bool_decide (magic_stdout = None) then
    Ret (MissingPipedData (combined_exit_code magic_exit_code JC_ERROR_EXIT))
  else
    let data :=
      match magic_stdout with
      | Some out => Py.str_or out (stdin_read w)
      | None => stdin_read w
      end in
    let selected :=
      match magic_found_parser with
      | Some p => if Py.truthy p then Some p else first_parser_arg reg argv
      | None => first_parser_arg reg argv
      end in
    match selected with
    | Some arg =>
        parser ← parser_module reg w arg;
        Ret (Parse parser data raw quiet debug magic_exit_code)
    | None =>
        Ret (MissingArguments
               (combined_exit_code magic_exit_code JC_ERROR_EXIT))
    end.

(** [main], with [sys.argv] as an argument.  The result pairs what the run
    wrote to the error stream before the dispatch with its outcome.  A valid
    command always comes with its token list ([magic_parser_total]), so the
    default of [run_command] is never used. *)
Definition main (reg : Registry) (w : World) (argv : list string)
  : Py.result (list string * outcome) :=
  m ← magic_parser (about_jc reg w) argv;
  if valid_command m then
    '(magic_stdout, magic_stderr, magic_exit_code) ←
      run_user_command w (default [] (run_command m));
    let printed :=
      if Py.truthy magic_stderr then [Py.drop_last magic_stderr] else [] in
    o ← dispatch reg w argv true (jc_parser m) (jc_options m)
          (Some magic_stdout) magic_exit_code;
    Ret (printed, o)
  else
    match run_command m with
    | None =>
        o ← dispatch reg w argv false (jc_parser m) (jc_options m) None 0;
        Ret ([], o)
    | Some run_command =>
        let run_command_str := Py.join " " run_command in
        Ret ([], ParserNotFound run_command_str
                   (combined_exit_code 0 JC_ERROR_EXIT))
    end.

(** ** Predicates used in the statements *)

(** A word that [shlex.quote] leaves alone: not empty, safe characters
    only. *)
Definition plain_word (s : string) : bool := Py.truthy s && Shlex.all_safe s.

(** The letters of the option words, in order. *)
Definition option_letters (opts : list string) : list ascii :=
  flat_map (λ o, Py.chars (Py.slice_from 1 o)) opts.

(** A single-dash option word. *)
Definition option_word (o : string) : bool :=
  Py.startswith o "-" && negb (Py.startswith o "--").

(** [entry] declares [phrase] among its magic commands. *)
Definition declares (phrase : string) (entry : info_dict) : Prop :=
  phrase ∈ default [] (magic_commands entry).

#[global] Instance declares_dec phrase entry : Decision (declares phrase entry).
Proof. unfold declares. apply _. Defined.

(** A colour that is neither the word default nor a name of the palette. *)
Definition bad_color (w : World) (color : string) : bool :=
  negb (String.eqb color "default")
  && negb (bool_decide (is_Some (palette w !! color))).

(** A colour configuration that is not four comma-separated fields, each
    the word default or a name of the palette. *)
Definition malformed (w : World) (s : string) : Prop :=
  length (Py.split_on "," s) ≠ 4%nat
  ∨ ∃ color, color ∈ Py.split_on "," s
             ∧ color ≠ "default" ∧ palette w !! color = None.

(** The dictionary for [default,default,default,default]: bold blue, bright
    black, magenta and green of the palette in use. *)
Definition default_styles (w : World) : styles :=
  if pygments_2_3 w then
    {| Name_Tag := "bold #ansidarkblue"; Keyword := "#ansidarkgray";
       Number := "#ansipurple"; String_ := "#ansidarkgreen" |}
  else
    {| Name_Tag := "bold ansiblue"; Keyword := "ansibrightblack";
       Number := "ansimagenta"; String_ := "ansigreen" |}.

(** ** A sample installation

    Converter modules are outside cli.py; the concrete runs below use an
    installation in which every catalogue name has a module with an [info]
    class, a few of them with the trigger phrases of their commands, and in
    which the machine has [uptime], [true] and [ls] but no [dig]. *)

Definition sample_magic_commands (path : string) : option (list string) :=
  if String.eqb path "jc.parsers.systemctl" then Some ["systemctl"]
  else if String.eqb path "jc.parsers.systemctl_lj"
       then Some ["systemctl list-jobs"]
  else if String.eqb path "jc.parsers.uptime" then Some ["uptime"]
  else if String.eqb path "jc.parsers.dig" then Some ["dig"]
  else if String.eqb path "jc.parsers.ls" then Some ["ls"]
  else if String.eqb path "jc.parsers.csv" then None
  else Some [].

(** The text attributes that every sample converter has. *)
Definition sample_info_attr (parser_mod : module) (attr : string)
  : option string :=
  if String.eqb attr "description" then Some "sample converter"
  else if String.eqb attr "version" then Some "1.0"
  else if String.eqb attr "author" then Some "Kelly Brazil"
  else if String.eqb attr "author_email" then Some "kellyjonbrazil@gmail.com"
  else None.

Definition sample_world : World := {|
  import_module path :=
    Ret {| mod__name__ := path;
           mod_info :=
             Some {| info_magic_commands := sample_magic_commands path |} |};
  popen_communicate command :=
    match command with
    | "uptime" :: _ => Ret (" 10:00:00 up 1 day", EmptyString, 0)
    | "true" :: _ => Ret (EmptyString, EmptyString, 0)
    | "ls" :: _ => Ret (EmptyString, "ls: cannot access" +:+ newline, 2)
    | _ => Raise Py.FileNotFoundError
    end;
  stdin_isatty := false;
  stdin_read := "8.8.8.8 reply";
  stdout_isatty := false;
  pygments_installed := true;
  pygments_2_3 := false;
  info_attr := sample_info_attr;
  info_compatible := λ _, Some ["linux"; "darwin"];
|}.

(** Two converters that declare the same phrase, in catalogue order. *)
Definition pip_list_entry : info_dict := {|
  name := "pip_list";
  argument := "--pip-list";
  magic_commands := Some ["pip list"; "pip3 list"];
|}.

Definition pip_plugin_entry : info_dict := {|
  name := "mypip";
  argument := "--mypip";
  magic_commands := Some ["pip list"];
|}.

(** A converter for a bare command and one for a sub-command of it. *)
Definition systemctl_entry : info_dict := {|
  name := "systemctl";
  argument := "--systemctl";
  magic_commands := Some ["systemctl"];
|}.

Definition systemctl_lj_entry : info_dict := {|
  name := "systemctl_lj";
  argument := "--systemctl-lj";
  magic_commands := Some ["systemctl list-jobs"];
|}.

(** The module of [parser] loads and has an [info] class. *)
Definition has_info (reg : Registry) (w : World) (parser : string) : Prop :=
  ∃ parser_mod info,
    parser_module reg w parser = Ret parser_mod
    ∧ mod_info parser_mod = Some info.

(** [entry] is the element that [about_jc] builds for [parser]: the flag
    and the module name, unless the [info] class has an [argument] or a
    [name] of its own, and the magic commands of the class. *)
Definition describes (reg : Registry) (w : World) (parser : string)
    (entry : info_dict) : Prop :=
  ∃ parser_mod info,
    parser_module reg w parser = Ret parser_mod
    ∧ mod_info parser_mod = Some info
    ∧ argument entry
      = default (parser_argument parser) (info_attr w parser_mod "argument")
    ∧ name entry
      = default
          (List.last (Py.split_on "." (mod__name__ parser_mod)) EmptyString)
          (info_attr w parser_mod "name")
    ∧ magic_commands entry = info_magic_commands info.

(** The [info] class of the module of [parser] defines no [argument] of its
    own. *)
Definition plain_argument (reg : Registry) (w : World) (parser : string)
  : Prop :=
  ∀ parser_mod, parser_module reg w parser = Ret parser_mod →
                info_attr w parser_mod "argument" = None.

(** The module has what the documentation of a converter reads. *)
Definition documented_info (w : World) (parser_mod : module) : Prop :=
  is_Some (mod_info parser_mod)
  ∧ is_Some (info_compatible w parser_mod)
  ∧ is_Some (info_attr w parser_mod "version")
  ∧ is_Some (info_attr w parser_mod "author")
  ∧ is_Some (info_attr w parser_mod "author_email").

(** The sample installation with one converter module that does not
    load. *)
Definition broken_world : World := {|
  import_module path :=
    if String.eqb path "jc.parsers.arp" then Raise Py.ModuleNotFoundError
    else import_module sample_world path;
  popen_communicate := popen_communicate sample_world;
  stdin_isatty := false;
  stdin_read := "8.8.8.8 reply";
  stdout_isatty := false;
  pygments_installed := true;
  pygments_2_3 := false;
  info_attr := sample_info_attr;
  info_compatible := λ _, Some ["linux"; "darwin"];
|}.

(** The colour of a slot for a valid field: the palette entry of the field,
    or of the fallback name when the field is the word default. *)
Definition pick_color (w : World) (color fallback : string) : string :=
  default EmptyString
    (palette w !! (if String.eqb color "default" then fallback
                         else color)).

(** A field that [set_env_colors] accepts. *)
Definition valid_color (w : World) (color : string) : Prop :=
  color = "default" ∨ is_Some (palette w !! color).

(** ** The end of main: the converter and the exit

    [parse] stands for [parser.parse(data, raw=raw, quiet=quiet)] of the
    loaded module; the text that [json_out] makes of the result is not
    modelled, only that the result is printed. *)
Inductive final (R : Type) : Type :=
| Stopped (o : outcome)
| ParseFailed (parser_name : string) (exit_code : Z)
| PrintResult (result : R) (exit_code : Z).
Arguments Stopped {R} o.
Arguments ParseFailed {R} parser_name exit_code.
Arguments PrintResult {R} result exit_code.

(** The local variable [parser_name] of [main] when the converter is
    called: it is assigned only inside the scan of the standard syntax, so
    it has no value when the converter came from the magic syntax. *)
Definition parser_name_local (reg : Registry) (argv : list string)
    (magic_found_parser : option string) : option string :=
  match magic_found_parser with
  | Some p =>
      if Py.truthy p then None
      else parser_shortname <$> first_parser_arg reg argv
  | None => parser_shortname <$> first_parser_arg reg argv
  end.

(** [main] to its end.  A failure of the converter is re-raised under the
    debug option; otherwise the message is built from [parser_name] and the
    run exits with the combined error code.  A result is printed and the
    run exits with the code of the child alone. *)
Definition main_end {R : Type} (reg : Registry) (w : World)
    (parse : module → string → bool → bool → Py.result R)
    (argv : list string) : Py.result (list string * final R) :=
  m ← magic_parser (about_jc reg w) argv;
  '(printed, o) ← main reg w argv;
  match o with
  | Parse parser data raw quiet debug magic_exit_code =>
      match parse parser data raw quiet with
      | Ret result =>
          Ret (printed,
               PrintResult result (combined_exit_code magic_exit_code 0))
      | Raise e =>
          if debug then Raise e
          else
            match parser_name_local reg argv (jc_parser m) with
            | None => Raise Py.UnboundLocalError
            | Some parser_name =>
                Ret (printed,
                     ParseFailed parser_name
                       (combined_exit_code magic_exit_code JC_ERROR_EXIT))
            end
      end
  | _ => Ret (printed, Stopped o)
  end.

(** A converter for the concrete runs: it fails on input that is only a
    newline and returns any other input as its result. *)
Definition sample_parse (parser : module) (data : string) (raw quiet : bool)
  : Py.result string :=
  if String.eqb data newline then Raise Py.IndexError else Ret data.

(** The sample installation with only a newline on the standard input. *)
Definition piped_newline_world : World := {|
  import_module := import_module sample_world;
  popen_communicate := popen_communicate sample_world;
  stdin_isatty := false;
  stdin_read := newline;
  stdout_isatty := false;
  pygments_installed := true;
  pygments_2_3 := false;
  info_attr := sample_info_attr;
  info_compatible := λ _, Some ["linux"; "darwin"];
|}.

(** * Properties *)

Lemma bind_Ret {A B} (a : A) (k : A → Py.result B) : Ret a ≫= k = k a.
Proof. reflexivity. Qed.

Lemma bind_Raise {A B} (e : Py.exn) (k : A → Py.result B) :
  Raise e ≫= k = Raise e.
Proof. reflexivity. Qed.

(** ** Exit codes *)

(** C1: for non-negative exit codes [x] of the user's command and [y] of the
    dispatcher, the combined exit code is [min(255, x + y)]; 200 and 100
    combine to 255, 0 and 0 to 0. *)
Theorem combined_exit_code_capped_sum (x y : Z) (Hx : 0 ≤ x) (Hy : 0 ≤ y) :
  combined_exit_code x y = Z.min 255 (x + y)
  ∧ combined_exit_code 200 100 = 255
  ∧ combined_exit_code 0 0 = 0.
Proof.
  split; [|split; reflexivity].
  unfold combined_exit_code; cbv zeta.
  destruct (Z.gtb_spec (x + y) 255); lia.
Qed.

Lemma combined_exit_code_capped_sum_witness :
  0 ≤ 200 ∧ 0 ≤ 100 ∧ combined_exit_code 200 100 = Z.min 255 (200 + 100).
Proof.
  split; [lia|]. split; [lia|].
  apply (combined_exit_code_capped_sum 200 100); lia.
Defined.

(** C10: only the upper cap applies.  Whenever the sum of the two codes is
    at most 255 the result is the sum itself, also for a negative code of
    the user's command. *)
Theorem combined_exit_code_exact_below_cap (x y : Z) (Hsum : x + y ≤ 255) :
  combined_exit_code x y = x + y.
Proof.
  unfold combined_exit_code; cbv zeta.
  destruct (Z.gtb_spec (x + y) 255); lia.
Qed.

Lemma combined_exit_code_exact_below_cap_witness :
  -9 + JC_ERROR_EXIT ≤ 255 ∧ combined_exit_code (-9) JC_ERROR_EXIT = 91
  ∧ combined_exit_code (-9) 0 = -9.
Proof.
  split; [unfold JC_ERROR_EXIT; lia|]. split.
  - rewrite (combined_exit_code_exact_below_cap (-9) JC_ERROR_EXIT).
    + reflexivity.
    + unfold JC_ERROR_EXIT; lia.
  - reflexivity.
Defined.

(** ** The user's command *)

(** C9: when the child ran and wrote nothing, the first component of the
    result is a single newline; any other output is returned as it is.  The
    result is never the empty string. *)
Theorem run_user_command_stdout (w : World) (command : list string)
    (out err : string) (code : Z)
    (Hran : popen_communicate w command = Ret (out, err, code)) :
  ∃ stdout, run_user_command w command = Ret (stdout, err, code)
            ∧ stdout ≠ EmptyString
            ∧ (out = EmptyString → stdout = newline)
            ∧ (out ≠ EmptyString → stdout = out).
Proof.
  exists (Py.str_or out newline). unfold run_user_command. rewrite Hran.
  split; [reflexivity|].
  destruct out as [|c out']; simpl.
  - repeat split; [discriminate | congruence].
  - repeat split; [discriminate | discriminate].
Qed.

Lemma run_user_command_stdout_witness :
  popen_communicate sample_world ["true"] = Ret (EmptyString, EmptyString, 0)
  ∧ ∃ stdout, run_user_command sample_world ["true"]
                = Ret (stdout, EmptyString, 0)
              ∧ stdout ≠ EmptyString
              ∧ (EmptyString = EmptyString → stdout = newline)
              ∧ (EmptyString ≠ EmptyString → stdout = EmptyString).
Proof.
  split; [reflexivity|].
  apply (run_user_command_stdout sample_world ["true"]). reflexivity.
Defined.

(** C7, as the code has it: when the child can be started the result is the
    triple of its output (a newline if there is none), its error text and
    its exit code, whatever that code is; when it cannot be started the
    exception of [Popen] leaves [run_user_command] as it came. *)
Theorem run_user_command_outcome (w : World) (command : list string) :
  (∀ out err code,
     popen_communicate w command = Ret (out, err, code) →
     run_user_command w command = Ret (Py.str_or out newline, err, code))
  ∧ (∀ e, popen_communicate w command = Raise e →
          run_user_command w command = Raise e).
Proof.
  unfold run_user_command.
  split; intros; rewrite H; reflexivity.
Qed.

Lemma run_user_command_outcome_witness :
  popen_communicate sample_world ["ls"; "/nowhere"]
    = Ret (EmptyString, "ls: cannot access" +:+ newline, 2)
  ∧ run_user_command sample_world ["ls"; "/nowhere"]
    = Ret (newline, "ls: cannot access" +:+ newline, 2).
Proof.
  split; [reflexivity|].
  exact (proj1 (run_user_command_outcome sample_world ["ls"; "/nowhere"])
           EmptyString ("ls: cannot access" +:+ newline) 2 eq_refl).
Defined.

(** C7, as stated, fails: with no [dig] on the machine the run of
    [dig example.com] returns no triple, it raises. *)
Lemma run_user_command_missing_binary_raises :
  ¬ (∃ outcome,
       run_user_command sample_world ["dig"; "example.com"] = Ret outcome)
  ∧ run_user_command sample_world ["dig"; "example.com"]
    = Raise Py.FileNotFoundError
  ∧ main builtin sample_world ["jc"; "-p"; "dig"; "example.com"]
    = Raise Py.FileNotFoundError.
Proof.
  split; [|split].
  - intros [o Ho]. vm_compute in Ho. discriminate.
  - reflexivity.
  - vm_compute. reflexivity.
Qed.

(** ** Re-tokenizing the arguments *)

Section Tokens.
Implicit Types (s u word : string) (l : list string).

Lemma str_app_cons (c : ascii) s u : String c s +:+ u = String c (s +:+ u).
Proof. reflexivity. Qed.

Lemma str_app_nil_r s : s +:+ EmptyString = s.
Proof.
  induction s as [|c s IH]; [reflexivity|]. by rewrite str_app_cons, IH.
Qed.

Lemma str_app_assoc s u word : (s +:+ u) +:+ word = s +:+ (u +:+ word).
Proof.
  induction s as [|c s IH]; [reflexivity|]. by rewrite !str_app_cons, IH.
Qed.

Lemma safe_char_not_space (c : ascii) :
  Shlex.safe_char c = true → Py.isspace c = false.
Proof.
  destruct c as [[] [] [] [] [] [] [] []]; vm_compute; intros H;
    first [reflexivity | discriminate H].
Qed.

(** A run of safe characters is taken into the current word whole. *)
Lemma split_go_safe u : Shlex.all_safe u = true →
  ∀ word s, Py.split_go word (u +:+ s) = Py.split_go (word +:+ u) s.
Proof.
  induction u as [|c u IH]; intros Hsafe word s.
  - by rewrite str_app_nil_r.
  - simpl in Hsafe. apply andb_prop in Hsafe as [Hc Hu].
    rewrite str_app_cons. cbn [Py.split_go].
    rewrite (safe_char_not_space c Hc), (IH Hu), str_app_assoc.
    reflexivity.
Qed.

Lemma plain_word_inv s :
  plain_word s = true → s ≠ EmptyString ∧ Shlex.all_safe s = true.
Proof.
  unfold plain_word. intros H. apply andb_prop in H as [Ht Hs].
  split; [|exact Hs]. by destruct s.
Qed.

Lemma quote_plain s : plain_word s = true → Shlex.quote s = s.
Proof.
  intros H. apply plain_word_inv in H as [Hne Hs].
  destruct s as [|c s]; [done|]. unfold Shlex.quote. by rewrite Hs.
Qed.

Lemma flush_plain s : plain_word s = true → Py.flush s = [s].
Proof. intros H. apply plain_word_inv in H as [Hne _]. by destruct s. Qed.

Lemma split_join_cons s l : plain_word s = true →
  Py.split (Py.join " " (s :: l)) = s :: Py.split (Py.join " " l).
Proof.
  intros H. pose proof (plain_word_inv s H) as [_ Hsafe].
  unfold Py.split, Py.join. destruct l as [|x l].
  - cbn [String.concat]. rewrite <- (str_app_nil_r s) at 1.
    rewrite (split_go_safe s Hsafe). cbn [Py.split_go].
    by apply flush_plain.
  - cbn [String.concat]. rewrite (split_go_safe s Hsafe).
    change (EmptyString +:+ s) with s. rewrite str_app_cons.
    cbn [Py.split_go Py.isspace]. by rewrite (flush_plain s H).
Qed.

(** Plain words at the front of the argument list come back as they are. *)
Lemma retokenize_plain l (rest : list string) :
  Forall (λ s, plain_word s = true) l →
  Py.split (Py.join " " (map Shlex.quote (l ++ rest)))
  = l ++ Py.split (Py.join " " (map Shlex.quote rest)).
Proof.
  induction 1 as [|s l Hs _ IH]; [reflexivity|].
  cbn [app map]. rewrite (quote_plain s Hs), (split_join_cons _ _ Hs).
  by rewrite IH.
Qed.

Lemma startswith_two_dashes s :
  Py.startswith s "-" = false → Py.startswith s "--" = false.
Proof.
  unfold Py.startswith. destruct s as [|c [|c' s]]; [done| |];
  destruct c as [[] [] [] [] [] [] [] []]; vm_compute; intros H;
    first [reflexivity | discriminate H].
Qed.

End Tokens.

(** ** The table of trigger phrases *)

Section MagicDict.
Implicit Types (d : gmap string string) (phrase : string).

Lemma foldl_insert_lookup (a : string) (l : list string) d phrase :
  foldl (λ d mc, <[mc := a]> d) d l !! phrase
  = if decide (phrase ∈ l) then Some a else d !! phrase.
Proof.
  revert d. induction l as [|mc l IH]; intros d; cbn [foldl].
  - by rewrite decide_False by apply not_elem_of_nil.
  - rewrite IH. destruct (decide (phrase ∈ l)) as [Hin|Hnotin].
    + by rewrite decide_True by (apply elem_of_cons; by right).
    + destruct (decide (phrase = mc)) as [->|Hne].
      * rewrite lookup_insert_eq.
        by rewrite decide_True by (apply elem_of_cons; by left).
      * rewrite lookup_insert_ne by congruence.
        rewrite decide_False; [reflexivity|].
        rewrite elem_of_cons. intros [?|?]; contradiction.
Qed.

Lemma entry_commands_lookup (entry : info_dict) phrase :
  entry_commands entry !! phrase
  = if decide (declares phrase entry) then Some (argument entry) else None.
Proof.
  unfold entry_commands, declares. rewrite foldl_insert_lookup.
  rewrite lookup_empty.
  destruct (decide (phrase ∈ default [] (magic_commands entry)));
    destruct (declares_dec phrase entry) as [H|H]; unfold declares in H;
    try reflexivity; contradiction.
Qed.

Lemma build_magic_dict_snoc (parser_info : list info_dict) entry :
  build_magic_dict (parser_info ++ [entry])
  = dict_update (build_magic_dict parser_info) (entry_commands entry).
Proof. unfold build_magic_dict. by rewrite foldl_app. Qed.

Lemma build_magic_dict_lookup (parser_info : list info_dict) phrase :
  build_magic_dict parser_info !! phrase
  = argument <$> last (filter (declares phrase) parser_info).
Proof.
  induction parser_info as [|entry parser_info IH] using rev_ind.
  - reflexivity.
  - rewrite build_magic_dict_snoc, filter_app. unfold dict_update.
    destruct (decide (declares phrase entry)) as [Hd|Hd].
    + rewrite (filter_cons_True _ _ _ Hd), filter_nil, last_snoc. simpl.
      apply lookup_union_Some_l.
      rewrite entry_commands_lookup. by rewrite decide_True.
    + rewrite (filter_cons_False _ _ _ Hd), filter_nil, app_nil_r, <- IH.
      apply lookup_union_r.
      rewrite entry_commands_lookup. by rewrite decide_False.
Qed.

End MagicDict.

(** C3, as the code has it: [update] overwrites, so a phrase maps to the
    flag of the last converter, in catalogue order, that declares it (and to
    nothing when no converter declares it). *)
Theorem magic_dict_last_registration_wins
    (parser_info : list info_dict) (phrase : string) :
  build_magic_dict parser_info !! phrase
  = argument <$> last (filter (declares phrase) parser_info).
Proof. apply build_magic_dict_lookup. Qed.

(** C3, as stated, fails: when a later converter declares the phrase of an
    earlier one, the table and the resolution of the command give the later
    converter, not the first. *)
Lemma magic_dict_first_registration_overwritten :
  head (filter (declares "pip list") [pip_list_entry; pip_plugin_entry])
    = Some pip_list_entry
  ∧ build_magic_dict [pip_list_entry; pip_plugin_entry] !! "pip list"
    ≠ Some (argument pip_list_entry)
  ∧ build_magic_dict [pip_list_entry; pip_plugin_entry] !! "pip list"
    = Some (argument pip_plugin_entry)
  ∧ (m ← magic_parser (Ret [pip_list_entry; pip_plugin_entry])
                      ["jc"; "pip"; "list"];
     Ret (jc_parser m))
    = Ret (Some "--mypip").
Proof.
  split; [|split; [|split]].
  - vm_compute. reflexivity.
  - vm_compute. discriminate.
  - vm_compute. reflexivity.
  - vm_compute. reflexivity.
Qed.

(** ** The option loop and the lookup of the command *)

Lemma find_options_prefix (opts cmd : list string) (options : list ascii) :
  Forall (λ o, option_word o = true) opts →
  match cmd with
  | [] => True
  | first :: _ => Py.startswith first "-" = false
  end →
  find_options (opts ++ cmd) (opts ++ cmd) options
  = Ret (Some (cmd, options ++ option_letters opts)).
Proof.
  intros Hopts Hcmd. revert options.
  induction Hopts as [|o opts Ho _ IH]; intros options.
  - cbn [app option_letters flat_map]. rewrite app_nil_r.
    destruct cmd as [|first cmd]; [reflexivity|].
    cbn [find_options].
    by rewrite (startswith_two_dashes first Hcmd), Hcmd.
  - unfold option_word in Ho. apply andb_prop in Ho as [Hdash Hnot2].
    apply negb_true_iff in Hnot2.
    cbn [app find_options]. rewrite Hnot2, Hdash, IH.
    unfold option_letters. cbn [flat_map]. by rewrite app_assoc.
Qed.

(** C2: a command line of option words followed by a command of two plain
    words (and any further arguments) is looked up by its two-word phrase
    first; the one-word phrase is used only when the table has no entry for
    the two-word phrase. *)
Theorem magic_parser_two_word_phrase_first
    (parser_info : list info_dict) (prog : string) (opts : list string)
    (w1 w2 : string) (rest : list string)
    (Hopts : Forall (λ o, plain_word o && option_word o = true) opts)
    (Hmeta : Py.in_list "h"%char (option_letters opts)
             || Py.in_list "a"%char (option_letters opts)
             || Py.in_list "v"%char (option_letters opts) = false)
    (Hw1 : plain_word w1 = true) (Hw2 : plain_word w2 = true)
    (Hcmd : Py.startswith w1 "-" = false) :
  let magic_dict := build_magic_dict parser_info in
  let two_word_command := w1 +:+ " " +:+ w2 in
  ∃ m more,
    magic_parser (Ret parser_info) (prog :: opts ++ w1 :: w2 :: rest) = Ret m
    ∧ run_command m = Some (w1 :: w2 :: more)
    ∧ jc_options m = option_letters opts
    ∧ (∀ p, magic_dict !! two_word_command = Some p → jc_parser m = Some p)
    ∧ (magic_dict !! two_word_command = None →
       jc_parser m = magic_dict !! w1).
Proof.
  intros magic_dict two_word_command.
  assert (Hplain : Forall (λ s, plain_word s = true) (opts ++ [w1; w2])).
  { apply Forall_app. split.
    - eapply Forall_impl; [exact Hopts|]. intros o Ho.
      by apply andb_prop in Ho as [? _].
    - by repeat constructor. }
  assert (Hoptw : Forall (λ o, option_word o = true) opts).
  { eapply Forall_impl; [exact Hopts|]. intros o Ho.
    by apply andb_prop in Ho as [_ ?]. }
  assert (Hfirst : ∃ arg1 tl, opts ++ w1 :: w2 :: rest = arg1 :: tl
                             ∧ Py.startswith arg1 "--" = false).
  { destruct Hoptw as [|o opts' Ho _].
    - exists w1, (w2 :: rest). split; [reflexivity|].
      by apply startswith_two_dashes.
    - exists o, (opts' ++ w1 :: w2 :: rest). split; [reflexivity|].
      unfold option_word in Ho. apply andb_prop in Ho as [_ Ho].
      by apply negb_true_iff in Ho. }
  destruct Hfirst as (arg1 & tl & Heq & Hnot2).
  set (more := Py.split (Py.join " " (map Shlex.quote rest))).
  set (found := get_or magic_dict two_word_command w1).
  exists {| valid_command := match found with
                             | Some p => Py.truthy p
                             | None => false
                             end;
            run_command := Some (w1 :: w2 :: more);
            jc_parser := found;
            jc_options := option_letters opts |}, more.
  split; [|split; [reflexivity|split; [reflexivity|split]]].
  - unfold magic_parser. rewrite Heq, Hnot2. cbn [tail]. rewrite <- Heq.
    replace (opts ++ w1 :: w2 :: rest) with ((opts ++ [w1; w2]) ++ rest)
      by (by rewrite <- app_assoc).
    rewrite (retokenize_plain _ rest Hplain). fold more.
    rewrite <- app_assoc. cbn [app].
    rewrite (find_options_prefix opts (w1 :: w2 :: more) [] Hoptw Hcmd).
    cbn [mbind result_bind Py.bind app]. rewrite Hmeta.
    reflexivity.
  - intros p Hp. cbn [jc_parser]. unfold found, get_or. by rewrite Hp.
  - intros Hnone. cbn [jc_parser]. unfold found, get_or. by rewrite Hnone.
Qed.

Lemma magic_parser_two_word_phrase_first_witness :
  ∃ m more,
    magic_parser (Ret [systemctl_entry; systemctl_lj_entry])
                 ("jc" :: ["-p"] ++ "systemctl" :: "list-jobs" :: ["--all"])
    = Ret m
    ∧ run_command m = Some ("systemctl" :: "list-jobs" :: more)
    ∧ jc_options m = ["p"%char]
    ∧ jc_parser m = Some "--systemctl-lj".
Proof.
  destruct (magic_parser_two_word_phrase_first
              [systemctl_entry; systemctl_lj_entry] "jc" ["-p"]
              "systemctl" "list-jobs" ["--all"])
    as (m & more & Hm & Hrun & Hopt & Htwo & _).
  - repeat constructor.
  - reflexivity.
  - reflexivity.
  - reflexivity.
  - reflexivity.
  - exists m, more. repeat split; try assumption.
    apply Htwo. vm_compute. reflexivity.
Defined.

(** C4, on the code: the quoted arguments are joined and then cut at every
    blank, so an argument with a space in it reaches the command as two
    tokens that still carry the quote characters. *)
Theorem magic_parser_cuts_argument_with_space (parser_info : list info_dict) :
  ∃ m, magic_parser (Ret parser_info) ["jc"; "echo"; "hello world"] = Ret m
       ∧ run_command m = Some ["echo"; "'hello"; "world'"]
       ∧ run_command m ≠ Some ["echo"; "hello world"].
Proof.
  eexists. split; [reflexivity|]. split; [reflexivity|discriminate].
Qed.

(** ** The resolution never fails on its own *)

(** The loop pops from the list it walks a copy of, so the list is never
    empty when it pops. *)
Lemma find_options_total (args_given : list string) (options : list ascii) :
  ∃ scanned, find_options args_given args_given options = Ret scanned.
Proof.
  revert options. induction args_given as [|arg rest IH]; intros options.
  - by eexists.
  - cbn [find_options].
    destruct (Py.startswith arg "--"); [by eexists|].
    destruct (Py.startswith arg "-"); [apply IH | by eexists].
Qed.

(** With the catalogue loaded, [magic_parser] returns for every argument
    vector, and a command it reports as valid comes with its tokens and its
    converter. *)
Lemma magic_parser_total (parser_info : list info_dict)
    (args : list string) :
  ∃ m, magic_parser (Ret parser_info) args = Ret m
       ∧ (valid_command m = true →
          is_Some (run_command m) ∧ is_Some (jc_parser m)).
Proof.
  unfold magic_parser.
  destruct args as [|prog [|arg1 tl]];
    [by exists not_magic | by exists not_magic |].
  destruct (Py.startswith arg1 "--"); [by exists not_magic|].
  cbn [tail].
  destruct (find_options_total
              (Py.split (Py.join " " (map Shlex.quote (arg1 :: tl)))) [])
    as [scanned ->].
  cbn [mbind result_bind Py.bind].
  destruct scanned as [[args_given options]|]; [|by exists not_magic].
  destruct (_ || _ || _); [by exists not_magic|].
  destruct args_given as [|one_word_command more]; [by exists not_magic|].
  eexists. split; [reflexivity|].
  cbn [valid_command run_command jc_parser].
  destruct (get_or _ _ _); [|discriminate].
  intros _. split; by eexists.
Qed.

(** ** Meta-operations *)

(** C5, as the code has it: [jc -h -a] is not magic syntax, and [main] tests
    the about flag before the help flag, so the run prints the about
    payload (plain, since no [-p] was given) and stops. *)
Theorem help_and_about_prints_about (reg : Registry) (w : World) :
  magic_parser (about_jc reg w) ["jc"; "-h"; "-a"] = Ret not_magic
  ∧ main reg w ["jc"; "-h"; "-a"]
    = (payload ← about_jc reg w;
       Ret ([], PrintAbout payload false (negb (pygments_installed w))
                           (negb (stdout_isatty w)))).
Proof.
  split; [reflexivity|].
  unfold main.
  change (magic_parser (about_jc reg w) ["jc"; "-h"; "-a"])
    with (Ret not_magic).
  cbn [mbind result_bind Py.bind valid_command run_command jc_parser
       jc_options not_magic].
  unfold dispatch.
  change (Py.in_list "a"%char ([] ++ argv_options ["jc"; "-h"; "-a"]))
    with true.
  change (Py.in_list "p"%char ([] ++ argv_options ["jc"; "-h"; "-a"]))
    with false.
  change (Py.in_list "m"%char ([] ++ argv_options ["jc"; "-h"; "-a"]))
    with false.
  cbv zeta. cbn [mbind result_bind Py.bind].
  destruct (about_jc reg w) as [payload|e]; [|reflexivity].
  destruct (pygments_installed w); reflexivity.
Qed.

(** C5, as stated, fails: the run of [jc -h -a] does not end in the help
    text. *)
Lemma help_and_about_does_not_print_help :
  ¬ ∃ printed documented,
      main builtin sample_world ["jc"; "-h"; "-a"]
      = Ret (printed, PrintHelp documented).
Proof.
  intros (printed & documented & H).
  vm_compute in H. discriminate H.
Qed.

(** ** Colours *)

Section Colours.
Variable w : World.
Hypothesis Hpyg : pygments_installed w = true.

(** With pygments installed the loop never fails: it sets the error flag
    exactly when a colour is neither default nor in the palette. *)
Lemma check_colors_installed (color_list : list string)
    (input_error : bool) :
  check_colors w color_list input_error
  = Ret (input_error || existsb (bad_color w) color_list).
Proof.
  revert input_error.
  induction color_list as [|color rest IH]; intros input_error.
  - cbn [check_colors existsb]. by rewrite orb_false_r.
  - cbn [check_colors existsb]. unfold PYGMENT_COLOR, bad_color at 1.
    rewrite Hpyg, bind_Ret.
    destruct (negb (String.eqb color "default"));
      [destruct (negb (bool_decide (is_Some (palette w !! color))))|];
      rewrite IH; cbn [andb orb]; by rewrite ?orb_true_r.
Qed.

Lemma default_not_bad : existsb (bad_color w) four_defaults = false.
Proof. reflexivity. Qed.

Lemma malformed_input_error (s : string) : malformed w s →
  negb (length (Py.split_on "," s) =? 4)%nat
  || existsb (bad_color w) (Py.split_on "," s) = true.
Proof.
  intros [Hlen|(color & Hin & Hne & Hnone)].
  - apply orb_true_iff. left. apply negb_true_iff.
    by apply Nat.eqb_neq.
  - apply orb_true_iff. right. apply existsb_exists.
    exists color. split; [by apply list_elem_of_In|].
    unfold bad_color. rewrite Hnone.
    apply andb_true_iff. split.
    + apply negb_true_iff. by apply String.eqb_neq.
    + reflexivity.
Qed.

(** The four slots of [default,default,default,default]. *)
Lemma default_slots :
  (_ ← token_type w; tag ← slot_color w four_defaults 0 "blue";
   _ ← token_type w; keyword ← slot_color w four_defaults 1 "brightblack";
   _ ← token_type w; number ← slot_color w four_defaults 2 "magenta";
   _ ← token_type w; str ← slot_color w four_defaults 3 "green";
   Ret {| Name_Tag := "bold " +:+ tag; Keyword := keyword;
          Number := number; String_ := str |})
  = Ret (default_styles w).
Proof.
  unfold token_type, slot_color, default_styles, PYGMENT_COLOR, palette.
  rewrite Hpyg. destruct (pygments_2_3 w); reflexivity.
Qed.

Lemma set_env_colors_error (s : string) :
  s ≠ EmptyString → malformed w s →
  set_env_colors w (Some s) = ([color_warning], Ret (default_styles w)).
Proof.
  intros Hne Hbad. unfold set_env_colors.
  destruct s as [|c s]; [done|].
  change (Py.truthy (String c s)) with true. cbv beta iota zeta.
  rewrite check_colors_installed, (malformed_input_error _ Hbad).
  by rewrite default_slots.
Qed.

Lemma set_env_colors_unset (env_colors : option string) :
  env_colors = None ∨ env_colors = Some EmptyString →
  set_env_colors w env_colors = ([], Ret (default_styles w)).
Proof.
  intros [->| ->]; unfold set_env_colors; cbn [Py.truthy]; cbv zeta;
    rewrite check_colors_installed;
    change (length four_defaults =? 4)%nat with true;
    rewrite default_not_bad; cbn [negb orb]; by rewrite default_slots.
Qed.

End Colours.

(** C6, as the code has it: with pygments installed, which is when the
    palette exists, for a malformed configuration that is not the empty
    string there is exactly one warning and the result is the complete
    default dictionary, with no exception; the empty string counts as no
    configuration at all and gives the default dictionary without a
    warning. *)
Theorem set_env_colors_malformed_falls_back (w : World) (s : string)
    (Hpyg : pygments_installed w = true)
    (Hne : s ≠ EmptyString) (Hbad : malformed w s) :
  set_env_colors w (Some s) = ([color_warning], Ret (default_styles w))
  ∧ set_env_colors w (Some EmptyString) = ([], Ret (default_styles w)).
Proof.
  split.
  - by apply set_env_colors_error.
  - apply set_env_colors_unset; [exact Hpyg | by right].
Qed.

Lemma set_env_colors_malformed_falls_back_witness :
  pygments_installed sample_world = true
  ∧ "red,blue,pink,green" ≠ EmptyString
  ∧ malformed sample_world "red,blue,pink,green"
  ∧ set_env_colors sample_world (Some "red,blue,pink,green")
    = ([color_warning], Ret (default_styles sample_world)).
Proof.
  assert (Hbad : malformed sample_world "red,blue,pink,green").
  { right. exists "pink". split; [|split].
    - vm_compute. repeat constructor.
    - discriminate.
    - vm_compute. reflexivity. }
  split; [reflexivity|]. split; [discriminate|]. split; [exact Hbad|].
  apply (set_env_colors_malformed_falls_back sample_world
           "red,blue,pink,green"); [reflexivity | discriminate | exact Hbad].
Defined.

(** C6, as stated, fails: the empty string does not split into four fields,
    and no warning is given for it. *)
Lemma set_env_colors_empty_string_no_warning :
  malformed sample_world EmptyString
  ∧ length (fst (set_env_colors sample_world (Some EmptyString))) ≠ 1%nat
  ∧ set_env_colors sample_world (Some EmptyString)
    = ([], Ret (default_styles sample_world)).
Proof.
  split; [|split].
  - left. vm_compute. discriminate.
  - vm_compute. discriminate.
  - vm_compute. reflexivity.
Qed.

(** ** Standard syntax *)

(** The argument that the scan picks is one whose text after the first two
    characters is a catalogue name. *)
Lemma first_parser_arg_Some (reg : Registry) (args : list string)
    (arg : string) :
  first_parser_arg reg args = Some arg →
  arg ∈ args ∧ parser_shortname arg ∈ parsers reg.
Proof.
  induction args as [|a args IH]; [discriminate|].
  cbn [first_parser_arg]. unfold Py.in_list.
  destruct (bool_decide_reflect (parser_shortname a ∈ parsers reg))
    as [Hin|Hnotin].
  - intros [= <-]. split; [by left|exact Hin].
  - intros H. apply IH in H as [? ?]. split; [by right|done].
Qed.

(** The flag of a catalogue name is picked. *)
Lemma first_parser_arg_flag (reg : Registry) (parser : string) :
  parser ∈ parsers reg →
  first_parser_arg reg [parser_argument parser]
  = Some (parser_argument parser).
Proof.
  intros Hin. cbn [first_parser_arg].
  change (parser_shortname (parser_argument parser)) with parser.
  unfold Py.in_list. by rewrite bool_decide_eq_true_2.
Qed.

(** C8, on the code: the scan cuts two characters off every argument
    without looking at them, so in [jc --zz uptime] the word [uptime], which
    is no flag, is taken for the converter [time] and the module [uptime] is
    loaded and run on the piped data. *)
Theorem standard_syntax_selects_plain_word :
  first_parser_arg builtin ["jc"; "--zz"; "uptime"] = Some "uptime"
  ∧ Py.startswith "uptime" "--" = false
  ∧ parser_shortname "uptime" = "time"
  ∧ main builtin sample_world ["jc"; "--zz"; "uptime"]
    = Ret ([], Parse {| mod__name__ := "jc.parsers.uptime";
                        mod_info :=
                          Some {| info_magic_commands := Some ["uptime"] |} |}
                     "8.8.8.8 reply" false false false 0).
Proof.
  repeat split; vm_compute; reflexivity.
Qed.

(** * Further properties of the code *)

(** ** Exit codes: range and composition *)

(** For non-negative codes the combined code is a valid exit status, it is
    zero only when both codes are zero, and a dispatcher failure on top of
    any child code gives at least the dispatcher's error code. *)
Theorem combined_exit_code_range (x y : Z) (Hx : 0 ≤ x) (Hy : 0 ≤ y) :
  0 ≤ combined_exit_code x y ≤ 255
  ∧ (combined_exit_code x y = 0 ↔ x = 0 ∧ y = 0)
  ∧ JC_ERROR_EXIT ≤ combined_exit_code x JC_ERROR_EXIT.
Proof.
  unfold combined_exit_code, JC_ERROR_EXIT; cbv zeta.
  destruct (Z.gtb_spec (x + y) 255), (Z.gtb_spec (x + 100) 255); lia.
Qed.

Lemma combined_exit_code_range_witness :
  0 ≤ combined_exit_code 2 JC_ERROR_EXIT ≤ 255
  ∧ (combined_exit_code 2 JC_ERROR_EXIT = 0 ↔ 2 = 0 ∧ JC_ERROR_EXIT = 0)
  ∧ JC_ERROR_EXIT ≤ combined_exit_code 2 JC_ERROR_EXIT.
Proof.
  apply (combined_exit_code_range 2 JC_ERROR_EXIT);
    unfold JC_ERROR_EXIT; lia.
Defined.

(** On non-negative codes the combination is commutative and associative:
    folding several codes gives the capped total in any grouping. *)
Theorem combined_exit_code_assoc (x y z : Z)
    (Hx : 0 ≤ x) (Hy : 0 ≤ y) (Hz : 0 ≤ z) :
  combined_exit_code (combined_exit_code x y) z
  = combined_exit_code x (combined_exit_code y z)
  ∧ combined_exit_code (combined_exit_code x y) z = Z.min 255 (x + y + z)
  ∧ combined_exit_code x y = combined_exit_code y x.
Proof.
  unfold combined_exit_code; cbv zeta.
  destruct (Z.gtb_spec (x + y) 255), (Z.gtb_spec (y + z) 255),
    (Z.gtb_spec (y + x) 255);
    repeat match goal with
           | |- context [?a >? ?b] => destruct (Z.gtb_spec a b)
           end; lia.
Qed.

Lemma combined_exit_code_assoc_witness :
  combined_exit_code (combined_exit_code 200 50) 30
  = combined_exit_code 200 (combined_exit_code 50 30)
  ∧ combined_exit_code (combined_exit_code 200 50) 30
    = Z.min 255 (200 + 50 + 30)
  ∧ combined_exit_code 200 50 = combined_exit_code 50 200.
Proof. apply (combined_exit_code_assoc 200 50 30); lia. Defined.

(** ** Names of converters *)

Section Names.
Implicit Types (s p : string) (c : ascii).

Lemma prefix_nil s : String.prefix EmptyString s = true.
Proof. by destruct s. Qed.

Lemma prefix_cons c s c' s' :
  String.prefix (String c s) (String c' s')
  = if ascii_dec c c' then String.prefix s s' else false.
Proof. reflexivity. Qed.

Lemma chars_cons c s : Py.chars (String c s) = c :: Py.chars s.
Proof. reflexivity. Qed.

(** Replacing a character that does not occur changes nothing. *)
Lemma replace_char_absent c s new :
  c ∉ Py.chars s → Py.replace s (String c EmptyString) new = s.
Proof.
  unfold Py.replace. induction s as [|c' s IH]; [done|].
  rewrite chars_cons, not_elem_of_cons. intros [Hne Hnotin].
  cbn [Py.replace_go]. rewrite prefix_cons.
  destruct (ascii_dec c c') as [Heq|_]; [contradiction|]. by rewrite IH.
Qed.

(** Neither does removing double dashes from a string without a dash. *)
Lemma replace_dashes_absent s :
  "-"%char ∉ Py.chars s → Py.replace s "--" EmptyString = s.
Proof.
  unfold Py.replace. induction s as [|c' s IH]; [done|].
  rewrite chars_cons, not_elem_of_cons. intros [Hne Hnotin].
  cbn [Py.replace_go]. rewrite prefix_cons.
  destruct (ascii_dec "-" c') as [Heq|_]; [contradiction|]. by rewrite IH.
Qed.

(** After dashes are replaced by underscores none is left. *)
Lemma replace_dash_removes s :
  "-"%char ∉ Py.chars (Py.replace s "-" "_").
Proof.
  unfold Py.replace. induction s as [|c' s IH]; [apply not_elem_of_nil|].
  cbn [Py.replace_go]. rewrite prefix_cons.
  destruct (ascii_dec "-" c') as [<-|Hne].
  - rewrite prefix_nil.
    change ("-"%char ∉ Py.chars
              (String "_" (Py.replace_go "-" "_" 0 s))).
    rewrite chars_cons, not_elem_of_cons. split; [discriminate|exact IH].
  - rewrite chars_cons, not_elem_of_cons. split; [exact Hne|exact IH].
Qed.

(** The leading double dash of a flag is the first occurrence removed. *)
Lemma replace_flag p :
  Py.replace (parser_argument p) "--" EmptyString
  = Py.replace p "--" EmptyString.
Proof.
  unfold Py.replace, parser_argument.
  change ("--" +:+ p) with (String "-" (String "-" p)).
  cbn [Py.replace_go]. rewrite !prefix_cons.
  destruct (ascii_dec "-" "-") as [_|Hne]; [|done].
  rewrite prefix_nil. reflexivity.
Qed.

End Names.

(** A catalogue name and its flag are two spellings of one converter: the
    flag gives back the name, and both load the same module. *)
Theorem parser_flag_round_trip (reg : Registry) (w : World) (p : string) :
  parser_shortname (parser_argument p) = p
  ∧ parser_mod_shortname (parser_argument p) = parser_mod_shortname p
  ∧ parser_module reg w (parser_argument p) = parser_module reg w p.
Proof.
  assert (H : parser_mod_shortname (parser_argument p)
              = parser_mod_shortname p).
  { unfold parser_mod_shortname. by rewrite replace_flag. }
  split; [reflexivity|]. split; [exact H|].
  unfold parser_module. by rewrite H.
Qed.

(** The module name computed for any argument contains no dash, and a name
    without dashes is its own module name. *)
Theorem parser_mod_shortname_no_dash (parser : string) :
  ("-"%char ∉ Py.chars (parser_mod_shortname parser))
  ∧ ("-"%char ∉ Py.chars parser → parser_mod_shortname parser = parser).
Proof.
  split; [apply replace_dash_removes|].
  intros Hnd. unfold parser_mod_shortname.
  rewrite (replace_dashes_absent _ Hnd). apply replace_char_absent, Hnd.
Qed.

Lemma parser_mod_shortname_no_dash_witness :
  parser_mod_shortname "pip_list" = "pip_list"
  ∧ parser_mod_shortname "--pip-list" = "pip_list".
Proof.
  split; [|reflexivity].
  apply (proj2 (parser_mod_shortname_no_dash "pip_list")).
  apply (bool_decide_unpack _). vm_compute. exact I.
Defined.

(** ** The plugin scan *)

Section Plugins.
Implicit Types (reg : Registry) (names : list string).

Lemma add_plugin_fold reg names :
  let reg' := foldl add_plugin reg names in
  NoDup (parsers reg) →
  parsers reg `prefix_of` parsers reg'
  ∧ NoDup (parsers reg')
  ∧ (∀ x, x ∈ parsers reg' ↔ x ∈ parsers reg ∨ x ∈ names)
  ∧ local_parsers reg' = local_parsers reg ++ names.
Proof.
  revert reg. induction names as [|plugin_name names IH]; intros reg reg' Hnd.
  - subst reg'. cbn [foldl]. repeat split; try done.
    + intros H; by left.
    + intros [H|H]; [done | by apply elem_of_nil in H].
    + by rewrite app_nil_r.
  - subst reg'. cbn [foldl].
    assert (Hnd' : NoDup (parsers (add_plugin reg plugin_name))).
    { cbn [add_plugin parsers]. unfold Py.in_list.
      destruct (bool_decide_reflect (plugin_name ∈ parsers reg)); [done|].
      apply NoDup_app. repeat split; [done| |apply NoDup_singleton].
      intros x Hx Hx'. apply list_elem_of_singleton in Hx' as ->. done. }
    destruct (IH (add_plugin reg plugin_name) Hnd')
      as (Hpre & Hnd'' & Hmem & Hloc).
    assert (Hp : parsers reg `prefix_of` parsers (add_plugin reg plugin_name)).
    { cbn [add_plugin parsers]. destruct (Py.in_list _ _); [done|].
      by apply prefix_app_r. }
    assert (Hm : ∀ x, x ∈ parsers (add_plugin reg plugin_name)
                      ↔ x ∈ parsers reg ∨ x = plugin_name).
    { intros x. cbn [add_plugin parsers]. unfold Py.in_list.
      destruct (bool_decide_reflect (plugin_name ∈ parsers reg)) as [Hin|Hni].
      - split; [by left|]. by intros [?| ->].
      - rewrite elem_of_app, list_elem_of_singleton. done. }
    repeat split.
    + by etrans.
    + done.
    + intros Hx. apply Hmem in Hx as [Hx|Hx].
      * apply Hm in Hx as [?| ->]; [by left|]. right. by left.
      * right. by right.
    + intros [Hx|Hx]; apply Hmem.
      * left. apply Hm. by left.
      * apply elem_of_cons in Hx as [->|Hx]; [|by right].
        left. apply Hm. by right.
    + rewrite Hloc. cbn [add_plugin local_parsers]. by rewrite <- app_assoc.
Qed.

Lemma builtin_NoDup : NoDup (parsers builtin).
Proof. apply (bool_decide_unpack _). vm_compute. exact I. Qed.

End Plugins.

(** The scan of the plugin directory keeps the catalogue of the source as
    the front of the list, in its order, adds every new plugin name once,
    never creates a duplicate, and remembers every plugin as local. *)
Theorem load_plugins_catalogue (plugin_names : list string) :
  parsers builtin `prefix_of` parsers (load_plugins plugin_names)
  ∧ NoDup (parsers (load_plugins plugin_names))
  ∧ (∀ x, x ∈ parsers (load_plugins plugin_names)
          ↔ x ∈ parsers builtin ∨ x ∈ plugin_names)
  ∧ local_parsers (load_plugins plugin_names) = plugin_names.
Proof.
  apply (add_plugin_fold builtin plugin_names), builtin_NoDup.
Qed.

(** A plugin whose name has no dash is loaded from the plugin package, by
    its name and by its flag, also when a converter of the source has the
    same name. *)
Theorem plugin_module_is_local (plugin_names : list string) (w : World)
    (plugin_name : string)
    (Hin : plugin_name ∈ plugin_names)
    (Hnd : "-"%char ∉ Py.chars plugin_name) :
  parser_module (load_plugins plugin_names) w plugin_name
  = import_module w ("jcparsers." +:+ plugin_name)
  ∧ parser_module (load_plugins plugin_names) w (parser_argument plugin_name)
    = import_module w ("jcparsers." +:+ plugin_name).
Proof.
  assert (Hs : parser_mod_shortname plugin_name = plugin_name).
  { unfold parser_mod_shortname.
    rewrite (replace_dashes_absent _ Hnd). apply replace_char_absent, Hnd. }
  assert (Hf : parser_mod_shortname (parser_argument plugin_name)
               = plugin_name).
  { unfold parser_mod_shortname. by rewrite replace_flag. }
  destruct (add_plugin_fold builtin plugin_names builtin_NoDup)
    as (_ & _ & _ & Hloc).
  fold (load_plugins plugin_names) in Hloc.
  cbn [builtin local_parsers app] in Hloc.
  unfold parser_module, Py.in_list. rewrite Hs, Hf, Hloc.
  by rewrite bool_decide_eq_true_2.
Qed.

Lemma plugin_module_is_local_witness :
  parser_module (load_plugins ["dig"; "mytool"]) sample_world "dig"
  = import_module sample_world ("jcparsers." +:+ "dig")
  ∧ parser_module (load_plugins ["dig"; "mytool"]) sample_world "--dig"
    = import_module sample_world ("jcparsers." +:+ "dig").
Proof.
  apply (plugin_module_is_local ["dig"; "mytool"] sample_world "dig").
  - apply (bool_decide_unpack _). vm_compute. exact I.
  - apply (bool_decide_unpack _). vm_compute. exact I.
Defined.

(** ** about_jc *)

Section About.
Variables (reg : Registry) (w : World).

(** Every round of the loop appends one element. *)
Lemma about_jc_loop_length (todo : list string) (current : option info_dict)
    (parser_list result : list info_dict) :
  about_jc_loop reg w todo current parser_list = Ret result →
  length result = (length parser_list + length todo)%nat.
Proof.
  revert current parser_list.
  induction todo as [|parser rest IH]; intros current parser_list.
  - cbn [about_jc_loop]. intros [= <-]. cbn [length]. lia.
  - cbn [about_jc_loop].
    destruct (parser_module reg w parser) as [parser_mod|e]; [|discriminate].
    rewrite bind_Ret.
    destruct (mod_info parser_mod) as [info|]; [|destruct current as [d|]];
      try discriminate;
      intros H; apply IH in H; rewrite H, length_app; cbn [length]; lia.
Qed.

(** When the modules of [todo] all load and have an [info] class, the loop
    appends their entries in order. *)
Lemma about_jc_loop_all_info (todo : list string)
    (current : option info_dict) (parser_list : list info_dict) :
  Forall (λ p, has_info reg w p) todo →
  ∃ entries,
    about_jc_loop reg w todo current parser_list = Ret (parser_list ++ entries)
    ∧ Forall2 (describes reg w) todo entries.
Proof.
  intros Hall. revert current parser_list.
  induction Hall as [|parser rest Hp _ IH]; intros current parser_list.
  - exists []. split; [by rewrite app_nil_r | constructor].
  - destruct Hp as (parser_mod & info & Hmod & Hinfo).
    cbn [about_jc_loop]. rewrite Hmod, bind_Ret, Hinfo.
    edestruct IH as (entries & -> & Hentries).
    eexists (_ :: entries). split.
    + by rewrite <- app_assoc.
    + constructor; [|exact Hentries].
      exists parser_mod, info. by repeat split.
Qed.

(** A module that fails to load stops the loop with its exception, when the
    modules before it load and have an [info] class. *)
Lemma about_jc_loop_raises (before after : list string) (parser : string)
    (e : Py.exn) (current : option info_dict)
    (parser_list : list info_dict) :
  Forall (λ p, has_info reg w p) before →
  parser_module reg w parser = Raise e →
  about_jc_loop reg w (before ++ parser :: after) current parser_list
  = Raise e.
Proof.
  intros Hall Hfail. revert current parser_list.
  induction Hall as [|p rest Hp _ IH]; intros current parser_list.
  - cbn [app about_jc_loop]. by rewrite Hfail.
  - destruct Hp as (parser_mod & info & Hmod & Hinfo).
    cbn [app about_jc_loop]. rewrite Hmod, bind_Ret, Hinfo. apply IH.
Qed.

End About.

(** Whenever [about_jc] returns, its list has one element for every name of
    the catalogue (the [parser_count] it reports is the size of the
    catalogue), whether or not every module has an [info] class. *)
Theorem about_jc_parser_count (reg : Registry) (w : World)
    (parser_list : list info_dict)
    (Hret : about_jc reg w = Ret parser_list) :
  length parser_list = length (parsers reg).
Proof.
  unfold about_jc in Hret. by apply about_jc_loop_length in Hret.
Qed.

Lemma about_jc_parser_count_witness :
  ∃ parser_list, about_jc builtin sample_world = Ret parser_list
                 ∧ length parser_list = length (parsers builtin).
Proof.
  destruct (about_jc builtin sample_world) as [parser_list|e] eqn:Heq.
  - exists parser_list. split; [reflexivity|].
    exact (about_jc_parser_count builtin sample_world parser_list Heq).
  - exfalso. vm_compute in Heq. discriminate Heq.
Defined.

(** When every module of the catalogue loads and has an [info] class,
    [about_jc] lists the converters in catalogue order.  Each element has
    the magic commands of the [info] class of its module; its argument is
    the flag of the catalogue name and its name the last component of the
    module name, unless the class has an [argument] or a [name] of its own,
    which then takes the place.  When no class has an [argument] of its
    own, the arguments are exactly the flags of the catalogue, in order. *)
Theorem about_jc_catalogue_order (reg : Registry) (w : World)
    (Hall : Forall (λ p, has_info reg w p) (parsers reg)) :
  ∃ parser_list,
    about_jc reg w = Ret parser_list
    ∧ Forall2 (describes reg w) (parsers reg) parser_list
    ∧ (Forall (plain_argument reg w) (parsers reg) →
       map argument parser_list = map parser_argument (parsers reg)).
Proof.
  destruct (about_jc_loop_all_info reg w (parsers reg) None [] Hall)
    as (entries & Heq & Hdesc).
  exists entries. split; [exact Heq|]. split; [exact Hdesc|].
  clear Heq Hall. induction Hdesc as [|p d ps ds Hd _ IH]; [reflexivity|].
  intros Hplain. apply Forall_cons in Hplain as [Hp Hplain].
  cbn [map]. rewrite (IH Hplain).
  destruct Hd as (parser_mod & info & Hmod & _ & -> & _).
  by rewrite (Hp parser_mod Hmod).
Qed.

Lemma about_jc_catalogue_order_witness :
  ∃ parser_list,
    about_jc builtin sample_world = Ret parser_list
    ∧ Forall2 (describes builtin sample_world) (parsers builtin) parser_list
    ∧ map argument parser_list = map parser_argument (parsers builtin).
Proof.
  destruct (about_jc_catalogue_order builtin sample_world)
    as (parser_list & Heq & Hdesc & Hargs).
  - apply Forall_forall. intros p _.
    unfold has_info, parser_module, sample_world, import_module.
    by eexists _, _.
  - exists parser_list. split; [exact Heq|]. split; [exact Hdesc|].
    apply Hargs, Forall_forall. intros p _ parser_mod _. reflexivity.
Defined.

(** The first module of the catalogue that fails to load makes [about_jc]
    fail with the same exception: every module of the catalogue is loaded,
    not only the converter that is asked for. *)
Theorem about_jc_import_failure (reg : Registry) (w : World)
    (before after : list string) (parser : string) (e : Py.exn)
    (Hcat : parsers reg = before ++ parser :: after)
    (Hbefore : Forall (λ p, has_info reg w p) before)
    (Hfail : parser_module reg w parser = Raise e) :
  about_jc reg w = Raise e.
Proof.
  unfold about_jc. rewrite Hcat. by apply about_jc_loop_raises.
Qed.

Lemma about_jc_import_failure_witness :
  about_jc builtin broken_world = Raise Py.ModuleNotFoundError
  ∧ main builtin broken_world ["jc"; "uptime"]
    = Raise Py.ModuleNotFoundError.
Proof.
  split; [|vm_compute; reflexivity].
  apply (about_jc_import_failure builtin broken_world
           (take 3 (parsers builtin)) (drop 4 (parsers builtin)) "arp").
  - reflexivity.
  - change (take 3 (parsers builtin)) with ["acpi"; "airport"; "airport-s"].
    repeat (constructor; [unfold has_info; by eexists _, _|]). constructor.
  - reflexivity.
Defined.

(** ** Magic syntax: when it is abandoned *)

Section OptionLoop.
Implicit Types (opts tokens : list string) (options : list ascii).

(** Leading option words are consumed one by one. *)
Lemma find_options_skip opts tokens options :
  Forall (λ o, option_word o = true) opts →
  find_options (opts ++ tokens) (opts ++ tokens) options
  = find_options tokens tokens (options ++ option_letters opts).
Proof.
  intros Hopts. revert options.
  induction Hopts as [|o opts Ho _ IH]; intros options.
  - cbn [app option_letters flat_map]. by rewrite app_nil_r.
  - unfold option_word in Ho. apply andb_prop in Ho as [Hdash Hnot2].
    apply negb_true_iff in Hnot2.
    cbn [app find_options]. rewrite Hnot2, Hdash, IH.
    unfold option_letters. cbn [flat_map]. by rewrite app_assoc.
Qed.

(** The loop only ever adds letters. *)
Lemma find_options_extends (todo args_given args_given' : list string)
    options options' :
  find_options todo args_given options = Ret (Some (args_given', options')) →
  ∃ extra, options' = options ++ extra.
Proof.
  revert args_given options.
  induction todo as [|arg rest IH]; intros args_given options.
  - cbn [find_options]. intros [= _ <-]. exists []. by rewrite app_nil_r.
  - cbn [find_options].
    destruct (Py.startswith arg "--"); [discriminate|].
    destruct (Py.startswith arg "-").
    + destruct args_given as [|popped args_given]; [discriminate|].
      intros H. apply IH in H as [extra ->].
      eexists. by rewrite <- app_assoc.
    + intros [= _ <-]. exists []. by rewrite app_nil_r.
Qed.

Lemma in_list_app_l (c : ascii) options extra :
  Py.in_list c options = true → Py.in_list c (options ++ extra) = true.
Proof.
  unfold Py.in_list. rewrite !bool_decide_eq_true, elem_of_app. by left.
Qed.

Lemma meta_app_l options extra :
  Py.in_list "h"%char options || Py.in_list "a"%char options
  || Py.in_list "v"%char options = true →
  Py.in_list "h"%char (options ++ extra)
  || Py.in_list "a"%char (options ++ extra)
  || Py.in_list "v"%char (options ++ extra) = true.
Proof.
  rewrite !orb_true_iff.
  intros [[H|H]|H]; eauto using in_list_app_l.
Qed.

End OptionLoop.

Lemma plain_option_words (opts : list string) :
  Forall (λ o, plain_word o && option_word o = true) opts →
  Forall (λ s, plain_word s = true) opts
  ∧ Forall (λ o, option_word o = true) opts.
Proof.
  intros H. split; (eapply Forall_impl; [exact H|]); intros o Ho;
    by apply andb_prop in Ho as [? ?].
Qed.

(** The start of [magic_parser] for a vector whose first argument is no
    double-dash flag. *)
Lemma magic_parser_unfold (about : Py.result (list info_dict))
    (prog arg1 : string) (tl : list string) :
  Py.startswith arg1 "--" = false →
  magic_parser about (prog :: arg1 :: tl)
  = (scanned ← (let args_given :=
                  Py.split (Py.join " " (map Shlex.quote (arg1 :: tl))) in
                find_options args_given args_given []);
     match scanned with
     | None => Ret not_magic
     | Some (args_given, options) =>
         if Py.in_list "h"%char options || Py.in_list "a"%char options
            || Py.in_list "v"%char options
         then Ret not_magic
         else
           match args_given with
           | [] => Ret not_magic
           | one_word_command :: _ =>
               parser_info ← about;
               let found_parser :=
                 get_or (build_magic_dict parser_info)
                        (Py.join " " (take 2 args_given)) one_word_command in
               Ret {| valid_command :=
                        match found_parser with
                        | Some p => Py.truthy p
                        | None => false
                        end;
                      run_command := Some args_given;
                      jc_parser := found_parser;
                      jc_options := options |}
           end
     end).
Proof. intros H. unfold magic_parser. rewrite H. reflexivity. Qed.

Lemma magic_parser_meta (about : Py.result (list info_dict))
    (prog : string) (opts rest : list string) :
  Forall (λ o, plain_word o && option_word o = true) opts →
  Py.in_list "h"%char (option_letters opts)
  || Py.in_list "a"%char (option_letters opts)
  || Py.in_list "v"%char (option_letters opts) = true →
  magic_parser about (prog :: opts ++ rest) = Ret not_magic.
Proof.
  intros Hopts Hmeta.
  destruct (plain_option_words opts Hopts) as [Hplain Hoptw].
  destruct opts as [|o opts']; [discriminate Hmeta|].
  assert (Ho : Py.startswith o "--" = false).
  { apply Forall_cons in Hoptw as [Ho _]. unfold option_word in Ho.
    apply andb_prop in Ho as [_ Ho]. by apply negb_true_iff in Ho. }
  cbn [app]. rewrite (magic_parser_unfold about prog o _ Ho). cbv zeta.
  change (o :: opts' ++ rest) with ((o :: opts') ++ rest).
  rewrite (retokenize_plain _ rest Hplain).
  rewrite (find_options_skip _ _ [] Hoptw). cbn [app].
  destruct (find_options_total
              (Py.split (Py.join " " (map Shlex.quote rest)))
              (option_letters (o :: opts')))
    as [scanned Hscan].
  rewrite Hscan, bind_Ret.
  destruct scanned as [[args_given options]|]; [|reflexivity].
  apply find_options_extends in Hscan as [extra ->].
  by rewrite (meta_app_l _ extra Hmeta).
Qed.

(** The meta options win over everything that follows them: when the
    leading option words ask for help, about or version, the invocation is
    not magic, whatever the rest of the command line is and whether or not
    the catalogue can be loaded; no command is run. *)
Theorem meta_options_abandon_magic (about : Py.result (list info_dict))
    (reg : Registry) (w : World) (prog : string) (opts rest : list string)
    (Hopts : Forall (λ o, plain_word o && option_word o = true) opts)
    (Hmeta : Py.in_list "h"%char (option_letters opts)
             || Py.in_list "a"%char (option_letters opts)
             || Py.in_list "v"%char (option_letters opts) = true) :
  magic_parser about (prog :: opts ++ rest) = Ret not_magic
  ∧ main reg w (prog :: opts ++ rest)
    = (o ← dispatch reg w (prog :: opts ++ rest) false None [] None 0;
       Ret ([], o)).
Proof.
  split; [by apply magic_parser_meta|].
  unfold main. rewrite (magic_parser_meta _ _ _ _ Hopts Hmeta), bind_Ret.
  reflexivity.
Qed.

Lemma meta_options_abandon_magic_witness :
  magic_parser (Raise Py.ModuleNotFoundError)
               ("jc" :: ["-p"; "-v"] ++ ["dig"; "example.com"])
  = Ret not_magic
  ∧ main builtin sample_world ("jc" :: ["-p"; "-v"] ++ ["dig"; "example.com"])
    = Ret ([], PrintVersion).
Proof.
  destruct (meta_options_abandon_magic (Raise Py.ModuleNotFoundError)
              builtin sample_world "jc" ["-p"; "-v"] ["dig"; "example.com"])
    as [Hmagic Hmain].
  - repeat constructor.
  - reflexivity.
  - split; [exact Hmagic|]. rewrite Hmain. reflexivity.
Defined.

(** A plain double-dash flag that comes before any command word sends the
    invocation to the standard syntax, with or without options in front of
    it. *)
Theorem flag_abandons_magic (about : Py.result (list info_dict))
    (prog : string) (opts : list string) (flag : string)
    (rest : list string)
    (Hopts : Forall (λ o, plain_word o && option_word o = true) opts)
    (Hplain : plain_word flag = true)
    (Hflag : Py.startswith flag "--" = true) :
  magic_parser about (prog :: opts ++ flag :: rest) = Ret not_magic.
Proof.
  destruct (plain_option_words opts Hopts) as [Hplains Hoptw].
  destruct opts as [|o opts'].
  - cbn [app]. unfold magic_parser. by rewrite Hflag.
  - assert (Ho : Py.startswith o "--" = false).
    { apply Forall_cons in Hoptw as [Ho _]. unfold option_word in Ho.
      apply andb_prop in Ho as [_ Ho]. by apply negb_true_iff in Ho. }
    cbn [app]. rewrite (magic_parser_unfold about prog o _ Ho). cbv zeta.
    change (o :: opts' ++ flag :: rest)
      with ((o :: opts') ++ [flag] ++ rest).
    rewrite app_assoc.
    rewrite (retokenize_plain ((o :: opts') ++ [flag]) rest).
    + rewrite <- app_assoc, (find_options_skip _ _ [] Hoptw).
      cbn [app find_options]. by rewrite Hflag.
    + apply Forall_app. split; [exact Hplains | by constructor].
Qed.

Lemma flag_abandons_magic_witness :
  magic_parser (Ret [systemctl_entry])
               ("jc" :: ["-p"] ++ "--dig" :: ["systemctl"])
  = Ret not_magic.
Proof.
  apply (flag_abandons_magic (Ret [systemctl_entry]) "jc" ["-p"] "--dig"
           ["systemctl"]).
  - repeat constructor.
  - reflexivity.
  - reflexivity.
Defined.

(** ** Magic syntax: plain command lines *)

(** The result of [magic_parser] for option words followed by a command of
    plain words. *)
Lemma magic_parser_plain (about : Py.result (list info_dict))
    (prog : string) (opts : list string) (w1 : string)
    (more : list string) :
  Forall (λ o, plain_word o && option_word o = true) opts →
  Py.in_list "h"%char (option_letters opts)
  || Py.in_list "a"%char (option_letters opts)
  || Py.in_list "v"%char (option_letters opts) = false →
  Forall (λ s, plain_word s = true) (w1 :: more) →
  Py.startswith w1 "-" = false →
  magic_parser about (prog :: opts ++ w1 :: more)
  = (parser_info ← about;
     let found_parser :=
       get_or (build_magic_dict parser_info)
              (Py.join " " (take 2 (w1 :: more))) w1 in
     Ret {| valid_command := match found_parser with
                             | Some p => Py.truthy p
                             | None => false
                             end;
            run_command := Some (w1 :: more);
            jc_parser := found_parser;
            jc_options := option_letters opts |}).
Proof.
  intros Hopts Hmeta Hcmd Hw1.
  destruct (plain_option_words opts Hopts) as [Hplain Hoptw].
  assert (Hfirst : ∃ arg1 tl, opts ++ w1 :: more = arg1 :: tl
                             ∧ Py.startswith arg1 "--" = false).
  { destruct Hoptw as [|o opts' Ho _].
    - exists w1, more. split; [reflexivity|].
      by apply startswith_two_dashes.
    - exists o, (opts' ++ w1 :: more). split; [reflexivity|].
      unfold option_word in Ho. apply andb_prop in Ho as [_ Ho].
      by apply negb_true_iff in Ho. }
  destruct Hfirst as (arg1 & tl & Heq & Hnot2).
  rewrite Heq, (magic_parser_unfold about prog arg1 tl Hnot2), <- Heq.
  cbv zeta.
  rewrite <- (app_nil_r (opts ++ w1 :: more)).
  rewrite (retokenize_plain (opts ++ w1 :: more) []);
    [|by apply Forall_app].
  change (Py.split (Py.join " " (map Shlex.quote []))) with (@nil string).
  rewrite app_nil_r.
  rewrite (find_options_prefix opts (w1 :: more) [] Hoptw Hw1), bind_Ret.
  cbn [app]. rewrite Hmeta. reflexivity.
Qed.

Lemma get_or_same (d : gmap string string) (k : string) :
  get_or d k k = d !! k.
Proof. unfold get_or. by destruct (d !! k). Qed.

(** Arguments made of plain words pass through unchanged: the command that
    will be run is the command that was typed, the options are the letters
    of the option words, and a one-word command is looked up by that
    word. *)
Theorem magic_parser_plain_command (parser_info : list info_dict)
    (prog : string) (opts : list string) (w1 : string)
    (more : list string)
    (Hopts : Forall (λ o, plain_word o && option_word o = true) opts)
    (Hmeta : Py.in_list "h"%char (option_letters opts)
             || Py.in_list "a"%char (option_letters opts)
             || Py.in_list "v"%char (option_letters opts) = false)
    (Hcmd : Forall (λ s, plain_word s = true) (w1 :: more))
    (Hw1 : Py.startswith w1 "-" = false) :
  ∃ m, magic_parser (Ret parser_info) (prog :: opts ++ w1 :: more) = Ret m
       ∧ run_command m = Some (w1 :: more)
       ∧ jc_options m = option_letters opts
       ∧ (valid_command m = true ↔
          ∃ flag, jc_parser m = Some flag ∧ flag ≠ EmptyString)
       ∧ (more = [] → jc_parser m = build_magic_dict parser_info !! w1).
Proof.
  rewrite (magic_parser_plain _ prog opts w1 more Hopts Hmeta Hcmd Hw1).
  rewrite bind_Ret. cbv zeta. eexists. split; [reflexivity|].
  cbn [run_command jc_options valid_command jc_parser].
  repeat split.
  - destruct (get_or _ _ _) as [flag|]; [|discriminate].
    intros Ht. exists flag. split; [reflexivity|]. by destruct flag.
  - intros (flag & -> & Hne). by destruct flag.
  - intros ->. cbn [take]. apply get_or_same.
Qed.

Lemma magic_parser_plain_command_witness :
  ∃ m, magic_parser (Ret [systemctl_entry; systemctl_lj_entry])
                    ("jc" :: ["-p"; "-r"] ++ "systemctl" :: [])
       = Ret m
       ∧ run_command m = Some ["systemctl"]
       ∧ jc_options m = ["p"; "r"]%char
       ∧ jc_parser m = Some "--systemctl".
Proof.
  destruct (magic_parser_plain_command [systemctl_entry; systemctl_lj_entry]
              "jc" ["-p"; "-r"] "systemctl" [])
    as (m & Hm & Hrun & Hopt & _ & Hone).
  - repeat constructor.
  - reflexivity.
  - repeat constructor.
  - reflexivity.
  - exists m. repeat split; try assumption.
    rewrite (Hone eq_refl). vm_compute. reflexivity.
Defined.

(** ** main: the magic syntax *)

(** A valid command has a converter flag that is not empty, a token list,
    and no meta option. *)
Lemma magic_parser_valid (about : Py.result (list info_dict))
    (args : list string) (m : magic) :
  magic_parser about args = Ret m →
  valid_command m = true →
  ∃ flag, jc_parser m = Some flag ∧ Py.truthy flag = true
          ∧ is_Some (run_command m)
          ∧ Py.in_list "h"%char (jc_options m)
            || Py.in_list "a"%char (jc_options m)
            || Py.in_list "v"%char (jc_options m) = false.
Proof.
  unfold magic_parser.
  destruct args as [|prog [|arg1 tl]]; try (by intros [= <-]).
  destruct (Py.startswith arg1 "--"); [by intros [= <-]|].
  cbn [tail].
  destruct (find_options _ _ _) as [[[args_given options]|]|e];
    rewrite ?bind_Ret, ?bind_Raise; try (by intros [= <-]); try discriminate.
  destruct (_ || _ || _) eqn:Hmeta; [by intros [= <-]|].
  destruct args_given as [|one_word_command more]; [by intros [= <-]|].
  destruct about as [parser_info|e];
    rewrite ?bind_Ret, ?bind_Raise; try discriminate.
  cbv zeta. intros [= <-].
  cbn [valid_command jc_parser run_command jc_options].
  destruct (get_or _ _ _) as [flag|]; [|discriminate].
  intros Ht. exists flag. by repeat split.
Qed.

(** The run of a valid magic command up to the call of the converter. *)
Lemma main_magic_run (reg : Registry) (w : World)
    (argv : list string) (m : magic) (command : list string)
    (out err : string) (code : Z)
    (Hm : magic_parser (about_jc reg w) argv = Ret m)
    (Hvalid : valid_command m = true)
    (Hcmd : run_command m = Some command)
    (Hran : popen_communicate w command = Ret (out, err, code)) :
  ∃ flag,
    jc_parser m = Some flag
    ∧ main reg w argv
      = (parser ← parser_module reg w flag;
         Ret (if Py.truthy err then [Py.drop_last err] else [],
              Parse parser (Py.str_or out newline)
                    (Py.in_list "r"%char (jc_options m))
                    (Py.in_list "q"%char (jc_options m))
                    (Py.in_list "d"%char (jc_options m))
                    code)).
Proof.
  destruct (magic_parser_valid _ _ _ Hm Hvalid)
    as (flag & Hflag & Htruthy & _ & Hmeta).
  apply orb_false_iff in Hmeta as [Hmeta Hv].
  apply orb_false_iff in Hmeta as [Hh Ha].
  exists flag. split; [exact Hflag|].
  unfold main. rewrite Hm, bind_Ret, Hvalid, Hcmd.
  change (default [] (Some command)) with command.
  unfold run_user_command. rewrite Hran, !bind_Ret.
  unfold dispatch. rewrite app_nil_r, Ha, Hh, Hv, Hflag, Htruthy.
  rewrite bool_decide_eq_false_2 by discriminate.
  rewrite andb_false_r. cbv zeta.
  replace (Py.str_or (Py.str_or out newline) (stdin_read w))
    with (Py.str_or out newline) by (by destruct out).
  destruct (parser_module reg w flag); reflexivity.
Qed.



(** A command of plain words that no converter declares ends the run with
    the dispatcher's error code and the command in the message; nothing is
    run. *)
Theorem unknown_command_exit (reg : Registry) (w : World)
    (parser_info : list info_dict) (prog : string) (opts : list string)
    (w1 : string) (more : list string)
    (Habout : about_jc reg w = Ret parser_info)
    (Hopts : Forall (λ o, plain_word o && option_word o = true) opts)
    (Hmeta : Py.in_list "h"%char (option_letters opts)
             || Py.in_list "a"%char (option_letters opts)
             || Py.in_list "v"%char (option_letters opts) = false)
    (Hcmd : Forall (λ s, plain_word s = true) (w1 :: more))
    (Hw1 : Py.startswith w1 "-" = false)
    (Htwo : build_magic_dict parser_info
              !! Py.join " " (take 2 (w1 :: more)) = None)
    (Hone : build_magic_dict parser_info !! w1 = None) :
  main reg w (prog :: opts ++ w1 :: more)
  = Ret ([], ParserNotFound (Py.join " " (w1 :: more)) JC_ERROR_EXIT).
Proof.
  unfold main.
  rewrite (magic_parser_plain _ prog opts w1 more Hopts Hmeta Hcmd Hw1).
  rewrite Habout, !bind_Ret. cbv zeta.
  unfold get_or. rewrite Htwo, Hone. reflexivity.
Qed.

Lemma unknown_command_exit_witness :
  main builtin sample_world ("jc" :: ["-p"] ++ "echo" :: ["hello"])
  = Ret ([], ParserNotFound "echo hello" 100).
Proof.
  destruct (about_jc builtin sample_world) as [parser_info|e] eqn:Habout;
    [|exfalso; vm_compute in Habout; discriminate Habout].
  assert (Hinfo := Habout). vm_compute in Hinfo. injection Hinfo as <-.
  apply (unknown_command_exit builtin sample_world _ "jc" ["-p"] "echo"
           ["hello"] Habout).
  - repeat constructor.
  - reflexivity.
  - repeat constructor.
  - reflexivity.
  - vm_compute. reflexivity.
  - vm_compute. reflexivity.
Defined.

(** ** main: the standard syntax *)

Section Standard.
Variables (reg : Registry) (w : World).

Lemma startswith_flag (p : string) :
  Py.startswith (parser_argument p) "--" = true.
Proof.
  unfold Py.startswith, parser_argument.
  change ("--" +:+ p) with (String "-" (String "-" p)).
  rewrite !prefix_cons.
  destruct (ascii_dec "-" "-"); [apply prefix_nil | done].
Qed.

(** A word that is no option and a double-dash flag add no letters. *)
Lemma argv_options_skip (prog flag : string) (rest : list string) :
  Py.startswith prog "-" = false →
  Py.startswith flag "--" = true →
  argv_options (prog :: flag :: rest) = argv_options rest.
Proof.
  intros Hprog Hflag. unfold argv_options. cbn [flat_map].
  by rewrite Hprog, Hflag, andb_false_r.
Qed.

(** A vector whose first argument is a double-dash flag goes straight to
    the dispatch. *)
Lemma main_standard (prog flag : string) (rest : list string) :
  Py.startswith flag "--" = true →
  main reg w (prog :: flag :: rest)
  = (o ← dispatch reg w (prog :: flag :: rest) false None [] None 0;
     Ret ([], o)).
Proof. intros Hflag. unfold main, magic_parser. by rewrite Hflag. Qed.

End Standard.

(** The run of the standard syntax up to the call of the converter. *)
Lemma main_standard_run (reg : Registry) (w : World) (prog p : string)
    (rest : list string)
    (Hp : p ∈ parsers reg)
    (Hprog : parser_shortname prog ∉ parsers reg)
    (Hword : Py.startswith prog "-" = false)
    (Hmeta : Py.in_list "h"%char (argv_options rest)
             || Py.in_list "a"%char (argv_options rest)
             || Py.in_list "v"%char (argv_options rest) = false) :
  main reg w (prog :: parser_argument p :: rest)
  = if stdin_isatty w
    then Ret ([], MissingPipedData JC_ERROR_EXIT)
    else
      parser ← parser_module reg w (parser_argument p);
      Ret ([], Parse parser (stdin_read w)
                     (Py.in_list "r"%char (argv_options rest))
                     (Py.in_list "q"%char (argv_options rest))
                     (Py.in_list "d"%char (argv_options rest))
                     0).
Proof.
  apply orb_false_iff in Hmeta as [Hmeta Hv].
  apply orb_false_iff in Hmeta as [Hh Ha].
  rewrite (main_standard reg w _ _ _ (startswith_flag p)).
  unfold dispatch. cbn [app].
  rewrite (argv_options_skip _ _ _ Hword (startswith_flag p)).
  rewrite Ha, Hh, Hv. cbv zeta.
  rewrite bool_decide_eq_true_2 by reflexivity. rewrite andb_true_r.
  destruct (stdin_isatty w); [reflexivity|].
  cbn [first_parser_arg]. unfold Py.in_list at 1.
  rewrite (bool_decide_eq_false_2 _ Hprog).
  change (parser_shortname (parser_argument p)) with p.
  unfold Py.in_list at 1. rewrite (bool_decide_eq_true_2 _ Hp).
  destruct (parser_module reg w (parser_argument p)); reflexivity.
Qed.

(** Standard syntax: with the flag of a catalogue name as first argument and
    no meta option, the run needs piped data; without it the exit code is
    the dispatcher's error code, with it the module of the flag is loaded
    and given the whole standard input, with exit code 0 to combine. *)
Theorem standard_syntax_run (reg : Registry) (w : World) (prog p : string)
    (rest : list string)
    (Hp : p ∈ parsers reg)
    (Hprog : parser_shortname prog ∉ parsers reg)
    (Hword : Py.startswith prog "-" = false)
    (Hmeta : Py.in_list "h"%char (argv_options rest)
             || Py.in_list "a"%char (argv_options rest)
             || Py.in_list "v"%char (argv_options rest) = false) :
  main reg w (prog :: parser_argument p :: rest)
  = if stdin_isatty w
    then Ret ([], MissingPipedData JC_ERROR_EXIT)
    else
      parser ← parser_module reg w (parser_argument p);
      Ret ([], Parse parser (stdin_read w)
                     (Py.in_list "r"%char (argv_options rest))
                     (Py.in_list "q"%char (argv_options rest))
                     (Py.in_list "d"%char (argv_options rest))
                     0).
Proof.
  exact (main_standard_run reg w prog p rest Hp Hprog Hword Hmeta).
Qed.

Lemma standard_syntax_run_witness :
  main builtin sample_world ("jc" :: parser_argument "ping" :: ["-p"; "-r"])
  = Ret ([], Parse {| mod__name__ := "jc.parsers.ping";
                      mod_info := Some {| info_magic_commands := Some [] |} |}
                   "8.8.8.8 reply" true false false 0).
Proof.
  rewrite (standard_syntax_run builtin sample_world "jc" "ping" ["-p"; "-r"]).
  - reflexivity.
  - apply (bool_decide_unpack _). vm_compute. exact I.
  - apply (bool_decide_unpack _). vm_compute. exact I.
  - reflexivity.
  - reflexivity.
Defined.

(** Help for one converter: [-h] followed by the flag of a catalogue name
    prints the documentation of the module of that flag, when the module
    loads and its [info] class has the attributes that the documentation
    reads. *)
Theorem help_documents_converter (reg : Registry) (w : World)
    (prog p : string) (parser : module)
    (Hp : p ∈ parsers reg)
    (Hprog : parser_shortname prog ∉ parsers reg)
    (Hempty : EmptyString ∉ parsers reg)
    (Hword : Py.startswith prog "-" = false)
    (Hmod : parser_module reg w (parser_argument p) = Ret parser)
    (Hdoc : documented_info w parser) :
  main reg w [prog; "-h"; parser_argument p]
  = Ret ([], PrintHelp (Some parser)).
Proof.
  change [prog; "-h"; parser_argument p]
    with (prog :: ["-h"] ++ [parser_argument p]).
  unfold main. rewrite (magic_parser_meta _ prog ["-h"] _);
    [|by repeat constructor|reflexivity].
  rewrite bind_Ret. cbn [app valid_command run_command jc_parser jc_options
                         not_magic].
  unfold dispatch. cbn [app].
  assert (Hopt : argv_options [prog; "-h"; parser_argument p] = ["h"%char]).
  { unfold argv_options. cbn [flat_map].
    by rewrite Hword, (startswith_flag p), andb_false_r. }
  rewrite Hopt.
  change (Py.in_list "a"%char ["h"%char]) with false.
  change (Py.in_list "h"%char ["h"%char]) with true.
  cbv zeta. unfold help_doc. cbn [first_parser_arg].
  unfold Py.in_list at 1. rewrite (bool_decide_eq_false_2 _ Hprog).
  change (parser_shortname "-h") with EmptyString.
  unfold Py.in_list at 1. rewrite (bool_decide_eq_false_2 _ Hempty).
  change (parser_shortname (parser_argument p)) with p.
  unfold Py.in_list at 1. rewrite (bool_decide_eq_true_2 _ Hp).
  destruct Hdoc as ([info Hinfo] & [compatible Hcompatible]
                    & [version Hversion] & [author Hauthor]
                    & [author_email Hemail]).
  unfold info_getcompatible, info_getattr.
  rewrite Hmod, bind_Ret, Hinfo, Hcompatible, Hversion, Hauthor, Hemail.
  reflexivity.
Qed.

Lemma help_documents_converter_witness :
  main builtin sample_world ["jc"; "-h"; parser_argument "dig"]
  = Ret ([], PrintHelp
               (Some {| mod__name__ := "jc.parsers.dig";
                        mod_info :=
                          Some {| info_magic_commands := Some ["dig"] |} |})).
Proof.
  apply (help_documents_converter builtin sample_world "jc" "dig").
  - apply (bool_decide_unpack _). vm_compute. exact I.
  - apply (bool_decide_unpack _). vm_compute. exact I.
  - apply (bool_decide_unpack _). vm_compute. exact I.
  - reflexivity.
  - reflexivity.
  - unfold documented_info. repeat split; by eexists.
Defined.

(** Options alone select nothing: with no meta option among them and no
    argument whose tail is a catalogue name, the run ends with the
    dispatcher's error code, for missing data on a terminal and for missing
    arguments otherwise. *)
Theorem options_only_exit (reg : Registry) (w : World) (prog : string)
    (opts : list string)
    (Hopts : Forall (λ o, plain_word o && option_word o = true) opts)
    (Hmeta : Py.in_list "h"%char (option_letters opts)
             || Py.in_list "a"%char (option_letters opts)
             || Py.in_list "v"%char (option_letters opts) = false)
    (Hword : Py.startswith prog "-" = false)
    (Hnone : first_parser_arg reg (prog :: opts) = None) :
  main reg w (prog :: opts)
  = Ret ([], if stdin_isatty w then MissingPipedData JC_ERROR_EXIT
             else MissingArguments JC_ERROR_EXIT).
Proof.
  destruct (plain_option_words opts Hopts) as [Hplain Hoptw].
  assert (Hmagic : magic_parser (about_jc reg w) (prog :: opts)
                   = Ret not_magic).
  { destruct opts as [|o opts']; [reflexivity|].
    assert (Ho : Py.startswith o "--" = false).
    { apply Forall_cons in Hoptw as [Ho _]. unfold option_word in Ho.
      apply andb_prop in Ho as [_ Ho]. by apply negb_true_iff in Ho. }
    rewrite (magic_parser_unfold _ prog o _ Ho). cbv zeta.
    rewrite <- (app_nil_r (o :: opts')).
    rewrite (retokenize_plain (o :: opts') [] Hplain).
    change (Py.split (Py.join " " (map Shlex.quote []))) with (@nil string).
    rewrite (find_options_prefix (o :: opts') [] [] Hoptw I), bind_Ret.
    cbn [app]. by rewrite Hmeta. }
  assert (Hletters : argv_options (prog :: opts) = option_letters opts).
  { unfold argv_options, option_letters. cbn [flat_map]. rewrite Hword.
    cbn [andb app]. clear -Hoptw.
    induction Hoptw as [|o opts Ho _ IH]; [reflexivity|].
    cbn [flat_map]. rewrite IH. unfold option_word in Ho. by rewrite Ho. }
  apply orb_false_iff in Hmeta as [Hmeta Hv].
  apply orb_false_iff in Hmeta as [Hh Ha].
  unfold main. rewrite Hmagic, bind_Ret.
  cbn [valid_command run_command jc_parser jc_options not_magic].
  unfold dispatch. cbn [app]. rewrite Hletters, Ha, Hh, Hv, Hnone. cbv zeta.
  rewrite bool_decide_eq_true_2 by reflexivity. rewrite andb_true_r.
  destruct (stdin_isatty w); reflexivity.
Qed.

Lemma options_only_exit_witness :
  main builtin sample_world ("jc" :: ["-p"; "-r"])
  = Ret ([], MissingArguments 100).
Proof.
  rewrite (options_only_exit builtin sample_world "jc" ["-p"; "-r"]).
  - reflexivity.
  - repeat constructor.
  - reflexivity.
  - reflexivity.
  - reflexivity.
Defined.

(** ** Colours: accepted configurations *)

Section Palette.
Variable w : World.
Hypothesis Hpyg : pygments_installed w = true.

Lemma valid_color_not_bad (color : string) :
  valid_color w color ↔ bad_color w color = false.
Proof.
  unfold valid_color, bad_color. rewrite andb_false_iff, !negb_false_iff.
  rewrite String.eqb_eq, bool_decide_eq_true. reflexivity.
Qed.

Lemma fallback_in_palette (fallback : string) :
  fallback ∈ ["blue"; "brightblack"; "magenta"; "green"] →
  is_Some (palette w !! fallback).
Proof.
  intros Hin. unfold palette.
  destruct (pygments_2_3 w);
    repeat (apply elem_of_cons in Hin as [->|Hin]; [by eexists|]);
    by apply elem_of_nil in Hin.
Qed.

(** A slot whose field is valid never fails. *)
Lemma slot_color_valid (color_list : list string) (i : nat)
    (color fallback : string) :
  color_list !! i = Some color →
  valid_color w color →
  fallback ∈ ["blue"; "brightblack"; "magenta"; "green"] →
  slot_color w color_list i fallback = Ret (pick_color w color fallback).
Proof.
  intros Hi Hvalid Hfb.
  unfold slot_color, getitem_list, pick_color, PYGMENT_COLOR.
  rewrite Hi, Hpyg, !bind_Ret.
  destruct (String.eqb_spec color "default") as [->|Hne]; cbn [negb].
  - unfold getitem_dict.
    destruct (fallback_in_palette fallback Hfb) as [v ->]. reflexivity.
  - unfold getitem_dict.
    destruct Hvalid as [?|[v ->]]; [contradiction|reflexivity].
Qed.

(** Four valid fields give no error flag and one colour per slot. *)
Lemma set_env_colors_fields (env_colors : option string)
    (c0 c1 c2 c3 : string) :
  match env_colors with
  | Some s => if Py.truthy s then Py.split_on "," s else four_defaults
  | None => four_defaults
  end = [c0; c1; c2; c3] →
  Forall (valid_color w) [c0; c1; c2; c3] →
  set_env_colors w env_colors
  = ([], Ret {| Name_Tag := "bold " +:+ pick_color w c0 "blue";
                Keyword := pick_color w c1 "brightblack";
                Number := pick_color w c2 "magenta";
                String_ := pick_color w c3 "green" |}).
Proof.
  intros Hlist Hvalid. unfold set_env_colors. rewrite Hlist. cbv zeta.
  assert (Hbad : existsb (bad_color w) [c0; c1; c2; c3] = false).
  { apply not_true_iff_false. rewrite existsb_exists.
    intros (c & Hin & Hc). apply list_elem_of_In in Hin.
    rewrite Forall_forall in Hvalid. apply Hvalid in Hin.
    apply valid_color_not_bad in Hin. congruence. }
  rewrite (check_colors_installed w Hpyg), Hbad.
  cbn [length Nat.eqb negb orb].
  apply Forall_cons in Hvalid as [H0 Hvalid].
  apply Forall_cons in Hvalid as [H1 Hvalid].
  apply Forall_cons in Hvalid as [H2 Hvalid].
  apply Forall_cons in Hvalid as [H3 _].
  unfold token_type. rewrite Hpyg, !bind_Ret.
  rewrite (slot_color_valid [c0; c1; c2; c3] 0 c0 "blue" eq_refl H0),
    (slot_color_valid [c0; c1; c2; c3] 1 c1 "brightblack" eq_refl H1),
    (slot_color_valid [c0; c1; c2; c3] 2 c2 "magenta" eq_refl H2),
    (slot_color_valid [c0; c1; c2; c3] 3 c3 "green" eq_refl H3);
    [reflexivity| | | |];
    apply (bool_decide_unpack _); vm_compute; exact I.
Qed.

End Palette.

Section NoPygments.
Variable w : World.
Hypothesis Hnone : pygments_installed w = false.

(** Without pygments the loop fails on the first colour that is not the
    word default, and on nothing else. *)
Lemma check_colors_missing (color_list : list string) (input_error : bool) :
  check_colors w color_list input_error = Raise Py.NameError
  ∨ ∃ flag, check_colors w color_list input_error = Ret flag.
Proof.
  revert input_error.
  induction color_list as [|color rest IH]; intros input_error.
  - right. by eexists.
  - cbn [check_colors]. unfold PYGMENT_COLOR. rewrite Hnone, bind_Raise.
    destruct (negb (String.eqb color "default")); [by left | apply IH].
Qed.

Lemma set_env_colors_missing (env_colors : option string) :
  snd (set_env_colors w env_colors) = Raise Py.NameError.
Proof.
  unfold set_env_colors. cbv zeta.
  destruct (check_colors_missing
              match env_colors with
              | Some s =>
                  if Py.truthy s then Py.split_on "," s else four_defaults
              | None => four_defaults
              end
              (negb
                 (length
                    match env_colors with
                    | Some s =>
                        if Py.truthy s then Py.split_on "," s
                        else four_defaults
                    | None => four_defaults
                    end =? 4)%nat)) as [->|[flag ->]]; [reflexivity|].
  cbn [snd]. unfold token_type. by rewrite Hnone.
Qed.

End NoPygments.

(** With pygments installed, a configuration of four valid fields is taken
    as it is: no warning, no exception, and each slot gets the palette
    colour of its own field, the fallback colour of the slot standing in
    for the word default. *)
Theorem set_env_colors_well_formed (w : World) (s c0 c1 c2 c3 : string)
    (Hpyg : pygments_installed w = true)
    (Hfields : Py.split_on "," s = [c0; c1; c2; c3])
    (Hvalid : Forall (valid_color w) [c0; c1; c2; c3]) :
  set_env_colors w (Some s)
  = ([], Ret {| Name_Tag := "bold " +:+ pick_color w c0 "blue";
                Keyword := pick_color w c1 "brightblack";
                Number := pick_color w c2 "magenta";
                String_ := pick_color w c3 "green" |}).
Proof.
  apply set_env_colors_fields; [exact Hpyg| |exact Hvalid].
  destruct s as [|c s]; [discriminate Hfields | exact Hfields].
Qed.

Lemma set_env_colors_well_formed_witness :
  set_env_colors sample_world (Some "red,default,brightcyan,white")
  = ([], Ret {| Name_Tag := "bold ansired"; Keyword := "ansibrightblack";
                Number := "ansibrightcyan"; String_ := "ansiwhite" |}).
Proof.
  rewrite (set_env_colors_well_formed sample_world
             "red,default,brightcyan,white"
             "red" "default" "brightcyan" "white").
  - reflexivity.
  - reflexivity.
  - reflexivity.
  - apply Forall_cons; split; [right; by eexists|].
    apply Forall_cons; split; [by left|].
    apply Forall_cons; split; [right; by eexists|].
    apply Forall_cons; split; [right; by eexists|]. constructor.
Defined.

(** [set_env_colors] fails only for want of pygments.  With pygments
    installed it returns a dictionary whatever the configuration, with at
    most one warning, and when it warns the dictionary is the default one.
    Without pygments neither the palette nor the token types exist and
    every call ends in a [NameError]. *)
Theorem set_env_colors_raises_only_without_pygments (w : World)
    (env_colors : option string) :
  if pygments_installed w then
    ∃ st, snd (set_env_colors w env_colors) = Ret st
          ∧ (fst (set_env_colors w env_colors) = []
             ∨ fst (set_env_colors w env_colors) = [color_warning]
               ∧ st = default_styles w)
  else snd (set_env_colors w env_colors) = Raise Py.NameError.
Proof.
  destruct (pygments_installed w) eqn:Hpyg;
    [|by apply set_env_colors_missing].
  set (color_list :=
         match env_colors with
         | Some s => if Py.truthy s then Py.split_on "," s else four_defaults
         | None => four_defaults
         end).
  destruct (negb (length color_list =? 4)%nat
            || existsb (bad_color w) color_list) eqn:Herr.
  - exists (default_styles w).
    unfold set_env_colors. fold color_list. cbv zeta.
    rewrite (check_colors_installed w Hpyg), Herr.
    rewrite (default_slots w Hpyg). split; [reflexivity|]. by right.
  - apply orb_false_iff in Herr as [Hlen Hbad].
    apply negb_false_iff, Nat.eqb_eq in Hlen.
    destruct color_list as [|c0 [|c1 [|c2 [|c3 [|c4 l]]]]] eqn:Hlist;
      try discriminate Hlen.
    assert (Hvalid : Forall (valid_color w) [c0; c1; c2; c3]).
    { apply Forall_forall. intros c Hc. apply valid_color_not_bad.
      apply not_true_iff_false. intros Hc'.
      apply not_true_iff_false in Hbad. apply Hbad, existsb_exists.
      exists c. split; [by apply list_elem_of_In|exact Hc']. }
    rewrite (set_env_colors_fields w Hpyg env_colors c0 c1 c2 c3 Hlist Hvalid).
    eexists. split; [reflexivity|]. by left.
Qed.

(** ** main: the converter and the exit code *)

Section Finish.
Context {R : Type}.
Variables (reg : Registry) (w : World).
Variable parse : module → string → bool → bool → Py.result R.

(** The end of a run whose dispatch reached the converter. *)
Lemma main_end_parse (argv : list string) (m : magic)
    (printed : list string) (parser : module) (data : string)
    (raw quiet debug : bool) (code : Z) :
  magic_parser (about_jc reg w) argv = Ret m →
  main reg w argv = Ret (printed, Parse parser data raw quiet debug code) →
  main_end reg w parse argv
  = match parse parser data raw quiet with
    | Ret result =>
        Ret (printed, PrintResult result (combined_exit_code code 0))
    | Raise e =>
        if debug then Raise e
        else
          match parser_name_local reg argv (jc_parser m) with
          | None => Raise Py.UnboundLocalError
          | Some parser_name =>
              Ret (printed,
                   ParseFailed parser_name
                     (combined_exit_code code JC_ERROR_EXIT))
          end
    end.
Proof.
  intros Hm Hmain. unfold main_end. by rewrite Hm, Hmain, !bind_Ret.
Qed.

End Finish.

(** A magic run whose converter returns a result prints it and exits with
    the exit code of the user's command, capped at 255: the code of a
    failing command survives a successful conversion. *)
Theorem magic_run_exit_code {R : Type} (reg : Registry) (w : World)
    (parse : module → string → bool → bool → Py.result R)
    (argv : list string) (m : magic) (command : list string)
    (out err : string) (code : Z) (flag : string) (parser : module)
    (result : R)
    (Hm : magic_parser (about_jc reg w) argv = Ret m)
    (Hvalid : valid_command m = true)
    (Hflag : jc_parser m = Some flag)
    (Hcmd : run_command m = Some command)
    (Hran : popen_communicate w command = Ret (out, err, code))
    (Hmod : parser_module reg w flag = Ret parser)
    (Hparse : parse parser (Py.str_or out newline)
                    (Py.in_list "r"%char (jc_options m))
                    (Py.in_list "q"%char (jc_options m)) = Ret result) :
  main_end reg w parse argv
  = Ret (if Py.truthy err then [Py.drop_last err] else [],
         PrintResult result (Z.min 255 code))
  ∧ (0 ≤ code ≤ 255 → Z.min 255 code = code).
Proof.
  split; [|lia].
  destruct (main_magic_run reg w argv m command out err code
              Hm Hvalid Hcmd Hran) as (flag' & Hflag' & Hmain).
  rewrite Hflag in Hflag'. injection Hflag' as <-.
  rewrite Hmod, bind_Ret in Hmain.
  rewrite (main_end_parse reg w parse argv m _ _ _ _ _ _ _ Hm Hmain).
  rewrite Hparse. do 3 f_equal.
  unfold combined_exit_code. cbv zeta. rewrite Z.add_0_r.
  destruct (Z.gtb_spec code 255); lia.
Qed.

Lemma magic_run_exit_code_witness :
  main_end builtin sample_world (λ _ data _ _, Ret data)
           ["jc"; "-r"; "ls"; "/nowhere"]
  = Ret (["ls: cannot access"], PrintResult newline 2).
Proof.
  destruct (magic_parser (about_jc builtin sample_world)
              ["jc"; "-r"; "ls"; "/nowhere"]) as [m|e] eqn:Hm;
    [|exfalso; vm_compute in Hm; discriminate Hm].
  assert (Hm' := Hm). vm_compute in Hm'. injection Hm' as <-.
  destruct (magic_run_exit_code builtin sample_world (λ _ data _ _, Ret data)
              ["jc"; "-r"; "ls"; "/nowhere"] _ ["ls"; "/nowhere"]
              EmptyString ("ls: cannot access" +:+ newline) 2 "--ls"
              {| mod__name__ := "jc.parsers.ls";
                 mod_info := Some {| info_magic_commands := Some ["ls"] |} |}
              newline Hm)
    as [Hend _].
  - reflexivity.
  - reflexivity.
  - reflexivity.
  - reflexivity.
  - reflexivity.
  - reflexivity.
  - rewrite Hend. reflexivity.
Defined.

(** A magic run whose converter fails never gives the dispatcher's message
    and error code: under the debug option the exception of the converter
    is raised again, and without it the message cannot be built, because
    the variable it names the converter by was never assigned, so the run
    dies with that error instead. *)
Theorem magic_run_converter_failure {R : Type} (reg : Registry) (w : World)
    (parse : module → string → bool → bool → Py.result R)
    (argv : list string) (m : magic) (command : list string)
    (out err : string) (code : Z) (flag : string) (parser : module)
    (e : Py.exn)
    (Hm : magic_parser (about_jc reg w) argv = Ret m)
    (Hvalid : valid_command m = true)
    (Hflag : jc_parser m = Some flag)
    (Hcmd : run_command m = Some command)
    (Hran : popen_communicate w command = Ret (out, err, code))
    (Hmod : parser_module reg w flag = Ret parser)
    (Hparse : parse parser (Py.str_or out newline)
                    (Py.in_list "r"%char (jc_options m))
                    (Py.in_list "q"%char (jc_options m)) = Raise e) :
  main_end reg w parse argv
  = if Py.in_list "d"%char (jc_options m) then Raise e
    else Raise Py.UnboundLocalError.
Proof.
  destruct (magic_parser_valid _ _ _ Hm Hvalid)
    as (flag' & Hflag' & Htruthy & _).
  rewrite Hflag in Hflag'. injection Hflag' as <-.
  destruct (main_magic_run reg w argv m command out err code
              Hm Hvalid Hcmd Hran) as (flag' & Hflag' & Hmain).
  rewrite Hflag in Hflag'. injection Hflag' as <-.
  rewrite Hmod, bind_Ret in Hmain.
  rewrite (main_end_parse reg w parse argv m _ _ _ _ _ _ _ Hm Hmain).
  rewrite Hparse, Hflag. unfold parser_name_local. by rewrite Htruthy.
Qed.

Lemma magic_run_converter_failure_witness :
  main_end builtin sample_world sample_parse ["jc"; "-r"; "ls"; "/nowhere"]
  = Raise Py.UnboundLocalError.
Proof.
  destruct (magic_parser (about_jc builtin sample_world)
              ["jc"; "-r"; "ls"; "/nowhere"]) as [m|e] eqn:Hm;
    [|exfalso; vm_compute in Hm; discriminate Hm].
  assert (Hm' := Hm). vm_compute in Hm'. injection Hm' as <-.
  rewrite (magic_run_converter_failure builtin sample_world sample_parse
             ["jc"; "-r"; "ls"; "/nowhere"] _ ["ls"; "/nowhere"]
             EmptyString ("ls: cannot access" +:+ newline) 2 "--ls"
             {| mod__name__ := "jc.parsers.ls";
                mod_info := Some {| info_magic_commands := Some ["ls"] |} |}
             Py.IndexError Hm); reflexivity.
Defined.

(** A standard run whose converter fails: under the debug option the
    exception is raised again; without it the run names the converter by
    the text after the two dashes and exits with the dispatcher's error
    code. *)
Theorem standard_run_converter_failure {R : Type} (reg : Registry)
    (w : World) (parse : module → string → bool → bool → Py.result R)
    (prog p : string) (rest : list string) (parser : module) (e : Py.exn)
    (Hp : p ∈ parsers reg)
    (Hprog : parser_shortname prog ∉ parsers reg)
    (Hword : Py.startswith prog "-" = false)
    (Hmeta : Py.in_list "h"%char (argv_options rest)
             || Py.in_list "a"%char (argv_options rest)
             || Py.in_list "v"%char (argv_options rest) = false)
    (Hpiped : stdin_isatty w = false)
    (Hmod : parser_module reg w (parser_argument p) = Ret parser)
    (Hparse : parse parser (stdin_read w)
                    (Py.in_list "r"%char (argv_options rest))
                    (Py.in_list "q"%char (argv_options rest)) = Raise e) :
  main_end reg w parse (prog :: parser_argument p :: rest)
  = if Py.in_list "d"%char (argv_options rest) then Raise e
    else Ret ([], ParseFailed p JC_ERROR_EXIT).
Proof.
  pose proof (main_standard_run reg w prog p rest Hp Hprog Hword Hmeta)
    as Hmain.
  rewrite Hpiped, Hmod, bind_Ret in Hmain.
  assert (Hm : magic_parser (about_jc reg w)
                 (prog :: parser_argument p :: rest) = Ret not_magic).
  { unfold magic_parser. by rewrite (startswith_flag p). }
  rewrite (main_end_parse reg w parse _ _ _ _ _ _ _ _ _ Hm Hmain).
  rewrite Hparse. destruct (Py.in_list "d"%char _); [reflexivity|].
  cbn [jc_parser not_magic parser_name_local first_parser_arg].
  unfold Py.in_list at 1. rewrite (bool_decide_eq_false_2 _ Hprog).
  change (parser_shortname (parser_argument p)) with p.
  unfold Py.in_list at 1. rewrite (bool_decide_eq_true_2 _ Hp).
  reflexivity.
Qed.

Lemma standard_run_converter_failure_witness :
  main_end builtin piped_newline_world sample_parse
           ("jc" :: parser_argument "ping" :: ["-p"])
  = Ret ([], ParseFailed "ping" 100).
Proof.
  rewrite (standard_run_converter_failure builtin piped_newline_world
             sample_parse "jc" "ping" ["-p"]
             {| mod__name__ := "jc.parsers.ping";
                mod_info := Some {| info_magic_commands := Some [] |} |}
             Py.IndexError).
  - reflexivity.
  - apply (bool_decide_unpack _). vm_compute. exact I.
  - apply (bool_decide_unpack _). vm_compute. exact I.
  - reflexivity.
  - reflexivity.
  - reflexivity.
  - reflexivity.
  - reflexivity.
Defined.

(** ** main: the meta operations *)

Lemma argv_options_option_words (opts : list string) :
  Forall (λ o, option_word o = true) opts →
  argv_options opts = option_letters opts.
Proof.
  unfold argv_options, option_letters.
  induction 1 as [|o opts Ho _ IH]; [reflexivity|].
  cbn [flat_map]. rewrite IH. unfold option_word in Ho. by rewrite Ho.
Qed.

Lemma argv_options_app (l1 l2 : list string) :
  argv_options (l1 ++ l2) = argv_options l1 ++ argv_options l2.
Proof. unfold argv_options. apply flat_map_app. Qed.

Lemma in_list_app (c : ascii) (l1 l2 : list ascii) :
  Py.in_list c (l1 ++ l2) = Py.in_list c l1 || Py.in_list c l2.
Proof.
  unfold Py.in_list. apply eq_true_iff_eq.
  rewrite orb_true_iff, !bool_decide_eq_true. apply elem_of_app.
Qed.

(** With a meta option among the leading option words the run always goes
    to a meta operation, in the order about, help, version: it never waits
    for piped data, never needs a converter flag and never runs a command.
    What can still fail is the meta operation itself, when it loads the
    modules of the catalogue ([about_jc], [help_doc]). *)
Theorem meta_operation_precedence (reg : Registry) (w : World)
    (prog : string) (opts rest : list string)
    (Hopts : Forall (λ o, plain_word o && option_word o = true) opts)
    (Hmeta : Py.in_list "h"%char (option_letters opts)
             || Py.in_list "a"%char (option_letters opts)
             || Py.in_list "v"%char (option_letters opts) = true) :
  let argv := prog :: opts ++ rest in
  let options := argv_options argv in
  main reg w argv
  = if Py.in_list "a"%char options then
      payload ← about_jc reg w;
      Ret ([], PrintAbout payload (Py.in_list "p"%char options)
                 (if pygments_installed w then Py.in_list "m"%char options
                  else true)
                 (negb (stdout_isatty w)))
    else if Py.in_list "h"%char options then
      documented ← help_doc reg w argv; Ret ([], PrintHelp documented)
    else Ret ([], PrintVersion).
Proof.
  intros argv options. subst argv.
  destruct (plain_option_words opts Hopts) as [_ Hoptw].
  unfold main. rewrite (magic_parser_meta _ _ _ _ Hopts Hmeta), bind_Ret.
  cbn [valid_command run_command jc_parser jc_options not_magic].
  unfold dispatch. cbn [app]. fold options. cbv zeta.
  assert (Hany : Py.in_list "h"%char options || Py.in_list "a"%char options
                 || Py.in_list "v"%char options = true).
  { subst options.
    change (prog :: opts ++ rest) with ([prog] ++ opts ++ rest).
    rewrite !argv_options_app, (argv_options_option_words opts Hoptw).
    rewrite !in_list_app.
    apply orb_true_iff in Hmeta as [Hmeta| ->];
      [apply orb_true_iff in Hmeta as [->| ->]|];
      by rewrite ?orb_true_r. }
  destruct (Py.in_list "a"%char options).
  - destruct (about_jc reg w); reflexivity.
  - destruct (Py.in_list "h"%char options).
    + destruct (help_doc reg w (prog :: opts ++ rest)); reflexivity.
    + cbn [orb] in Hany. by rewrite Hany.
Qed.

Lemma meta_operation_precedence_witness :
  main builtin sample_world ("jc" :: ["-v"; "-h"] ++ ["dig"; "example.com"])
  = Ret ([], PrintHelp None)
  ∧ main builtin broken_world ("jc" :: ["-v"; "-h"] ++ ["dig"; "example.com"])
    = Raise Py.ModuleNotFoundError.
Proof.
  split.
  - rewrite (meta_operation_precedence builtin sample_world "jc"
               ["-v"; "-h"] ["dig"; "example.com"]).
    + vm_compute. reflexivity.
    + repeat constructor.
    + reflexivity.
  - rewrite (meta_operation_precedence builtin broken_world "jc"
               ["-v"; "-h"] ["dig"; "example.com"]).
    + vm_compute. reflexivity.
    + repeat constructor.
    + reflexivity.
Defined.

Lemma magic_parser_total_witness :
  ∃ m, magic_parser (Ret [systemctl_entry]) ["jc"; "systemctl"] = Ret m
       ∧ valid_command m = true
       ∧ is_Some (run_command m) ∧ is_Some (jc_parser m).
Proof.
  destruct (magic_parser_total [systemctl_entry] ["jc"; "systemctl"])
    as (m & Hm & Hvalid).
  assert (Hm' := Hm). vm_compute in Hm'. injection Hm' as <-.
  eexists. split; [reflexivity|]. split; [reflexivity|].
  apply Hvalid. reflexivity.
Defined.

(** ** main: a command that cannot be started *)

(** When the command of a valid magic invocation cannot be started, the
    exception of [Popen] leaves [main] as it came: nothing catches it on
    the way. *)
Theorem magic_run_spawn_failure (reg : Registry) (w : World)
    (argv : list string) (m : magic) (command : list string) (e : Py.exn)
    (Hm : magic_parser (about_jc reg w) argv = Ret m)
    (Hvalid : valid_command m = true)
    (Hcmd : run_command m = Some command)
    (Hfail : popen_communicate w command = Raise e) :
  main reg w argv = Raise e.
Proof.
  unfold main. rewrite Hm, bind_Ret, Hvalid, Hcmd.
  change (default [] (Some command)) with command.
  unfold run_user_command. by rewrite Hfail.
Qed.

Lemma magic_run_spawn_failure_witness :
  main builtin sample_world ["jc"; "-p"; "dig"; "example.com"]
  = Raise Py.FileNotFoundError.
Proof.
  destruct (magic_parser (about_jc builtin sample_world)
              ["jc"; "-p"; "dig"; "example.com"]) as [m|e] eqn:Hm;
    [|exfalso; vm_compute in Hm; discriminate Hm].
  assert (Hm' := Hm). vm_compute in Hm'. injection Hm' as <-.
  apply (magic_run_spawn_failure builtin sample_world
           ["jc"; "-p"; "dig"; "example.com"] _ ["dig"; "example.com"]
           Py.FileNotFoundError Hm); reflexivity.
Defined.
